(** * MAC-BLP: Bell-LaPadula mediation layer

    A shallow embedding of the policy engine ([security_monitor.py]), the
    access mediator ([access_manager.py]), the audit sink ([audit.py]) and the
    object directory ([object_manager.py]), together with the properties the
    specification states about them.

    Security levels, user ids and object ids are Python integers, hence [Z].
    Names, contents and audit details are strings.  The three SQLite tables
    are finite maps from the integer primary key to a row record. *)

From Stdlib Require Import ZArith String Ascii.
From stdpp Require Import base decidable option list gmap strings sorting pretty.

Local Open Scope Z_scope.

(** ** config.py *)

Module Config.

Definition SECURITY_LEVELS : gmap Z string :=
  list_to_map
    [ (0, "Public"%string); (1, "Confidential"%string);
      (2, "Secret"%string); (3, "Top Secret"%string) ].

(** Python's [level in SECURITY_LEVELS]. *)
Definition level_in (level : Z) : bool :=
  bool_decide (is_Some (SECURITY_LEVELS !! level)).

(** Python's [SECURITY_LEVELS.get(level, "Unknown")]. *)
Definition level_name (level : Z) : string :=
  default "Unknown"%string (SECURITY_LEVELS !! level).

End Config.

(** ** security_monitor.py *)

Module SecurityMonitor.
Import Config.

Definition check_read_access (user_level object_level : Z) : bool :=
  if negb (level_in user_level) || negb (level_in object_level) then false
  else user_level >=? object_level.

Definition check_write_access (user_level object_level : Z) : bool :=
  if negb (level_in user_level) || negb (level_in object_level) then false
  else user_level <=? object_level.

Definition check_delete_access
    (user_level object_level : Z) (is_owner is_super_admin : bool) : bool :=
  if is_super_admin && (user_level =? 3) then true
  else if is_owner && (user_level =? object_level) then true
  else false.

Definition can_view_object_existence (user_level object_level : Z) : bool :=
  user_level >=? object_level.

Definition get_access_description
    (user_level object_level : Z) (action : string) : string :=
  let user_level_name := level_name user_level in
  let object_level_name := level_name object_level in
  if String.eqb action "read" then
    if user_level >=? object_level
    then ("READ granted: " +:+ user_level_name +:+ " can read "
          +:+ object_level_name)%string
    else ("READ denied: " +:+ user_level_name +:+ " cannot read "
          +:+ object_level_name +:+ " (No Read Up)")%string
  else if String.eqb action "write" then
    if user_level <=? object_level
    then ("WRITE granted: " +:+ user_level_name +:+ " can write to "
          +:+ object_level_name)%string
    else ("WRITE denied: " +:+ user_level_name +:+ " cannot write to "
          +:+ object_level_name +:+ " (No Write Down)")%string
  else "Unknown action"%string.

Definition validate_security_level (level : Z) : bool := level_in level.

End SecurityMonitor.

(** ** database.py: the three tables and the storage collaborator

    Only the columns the mediation layer reads or writes are kept.
    [is_super_admin] is a BOOLEAN column, which SQLite stores as the integers
    0 and 1; Python tests it by truthiness.  [objects_seq] is the
    AUTOINCREMENT counter of the [objects] table.  The [timestamp] and [id]
    columns of [audit_logs] are filled in by SQLite and are left out: the log
    is the list of inserted rows, oldest first. *)

Record user_row := mk_user {
  u_security_level : Z;
  u_is_super_admin : Z;
}.

Record object_row := mk_object {
  o_name : string;
  o_content : string;
  o_security_level : Z;
  o_owner_id : Z;
}.

Record audit_row := mk_audit {
  a_event_type : string;
  a_user_id : Z;
  a_object_id : option Z;
  a_details : string;
  a_success : bool;
}.

Record Db := mk_db {
  users : gmap Z user_row;
  objects : gmap Z object_row;
  objects_seq : Z;
  audit_logs : list audit_row;
}.

(** What the storage collaborator does during one call: each field, when
    [Some msg], makes the corresponding [cursor.execute] or [conn.commit]
    raise an exception whose text is [msg]. *)
Record Faults := mk_faults {
  select_users_fault : option string;
  select_objects_fault : option string;
  execute_dml_fault : option string;
  commit_fault : option string;
  audit_insert_fault : option string;
}.

Definition no_faults : Faults := mk_faults None None None None None.

(** A Python call either returns a value or raises. *)
Inductive outcome (A : Type) : Type :=
  | Returned (a : A)
  | Raised (e : string).
Arguments Returned {A} a.
Arguments Raised {A} e.

(** Computations over the database, under a given behaviour of the storage
    collaborator. *)
Definition M (A : Type) : Type := Faults → Db → outcome A * Db.

#[global] Instance M_ret : MRet M := λ A a _ db, (Returned a, db).

#[global] Instance M_bind : MBind M := λ A B k m flt db,
  match m flt db with
  | (Returned a, db') => k a flt db'
  | (Raised e, db') => (Raised e, db')
  end.

(** [try: m except Exception as e: h e] *)
Definition try_except {A} (m : M A) (h : string → M A) : M A := λ flt db,
  match m flt db with
  | (Returned a, db') => (Returned a, db')
  | (Raised e, db') => h e flt db'
  end.

(** Python truthiness of an integer. *)
Definition truthy (z : Z) : bool := negb (z =? 0).

(** [str(b)] for a Python bool. *)
Definition str_bool (b : bool) : string :=
  if b then "True"%string else "False"%string.

Module Database.

(** [SELECT ... FROM users WHERE id = ?] followed by [fetchone()]. *)
Definition select_user (user_id : Z) : M (option user_row) := λ flt db,
  match select_users_fault flt with
  | Some e => (Raised e, db)
  | None => (Returned (users db !! user_id), db)
  end.

(** [SELECT ... FROM objects WHERE id = ?] followed by [fetchone()]. *)
Definition select_object (object_id : Z) : M (option object_row) := λ flt db,
  match select_objects_fault flt with
  | Some e => (Raised e, db)
  | None => (Returned (objects db !! object_id), db)
  end.

(** [SELECT ... FROM objects] with no parameter that could fail to bind:
    every row of the table with its id. *)
Definition select_all_objects : M (list (Z * object_row)) := λ flt db,
  match select_objects_fault flt with
  | Some e => (Raised e, db)
  | None => (Returned (map_to_list (objects db)), db)
  end.

(** A data-modifying statement followed by [conn.commit()].  A change that
    was executed but not committed is dropped when the connection is closed,
    so the table changes only if both steps succeed. *)
Definition execute_and_commit {A} (change : Db → A * Db) : M A := λ flt db,
  match execute_dml_fault flt with
  | Some e => (Raised e, db)
  | None =>
      match commit_fault flt with
      | Some e => (Raised e, db)
      | None => let '(a, db') := change db in (Returned a, db')
      end
  end.

Definition set_objects (f : gmap Z object_row → gmap Z object_row) (db : Db) : Db :=
  mk_db (users db) (f (objects db)) (objects_seq db) (audit_logs db).

(** [UPDATE objects SET content = ? WHERE id = ?] *)
Definition update_content (object_id : Z) (new_content : string) : M unit :=
  execute_and_commit (λ db,
    (tt, set_objects
           (alter (λ o, mk_object (o_name o) new_content
                                  (o_security_level o) (o_owner_id o))
                  object_id) db)).

(** [DELETE FROM objects WHERE id = ?] *)
Definition delete_object (object_id : Z) : M unit :=
  execute_and_commit (λ db, (tt, set_objects (delete object_id) db)).

(** The largest rowid present in the table (0 when it is empty). *)
Definition max_rowid (m : gmap Z object_row) : Z :=
  map_fold (λ k _ acc, Z.max k acc) 0 m.

(** The rowid an AUTOINCREMENT table gives to its next row. *)
Definition next_rowid (db : Db) : Z :=
  Z.max (objects_seq db) (max_rowid (objects db)) + 1.

(** [INSERT INTO objects (name, content, security_level, owner_id)], then
    [cursor.lastrowid]. *)
Definition insert_object (row : object_row) : M Z :=
  execute_and_commit (λ db,
    let object_id := next_rowid db in
    (object_id,
     mk_db (users db) (<[object_id := row]> (objects db)) object_id
           (audit_logs db))).

End Database.

(** ** audit.py *)

Module Audit.

(** [log_event]: the insert is wrapped in [try ... except Exception], which
    prints the error and goes on; the caller never sees a failure. *)
Definition log_event (user_id : Z) (event_type : string)
    (object_id : option Z) (details : string) (success : bool) : M unit :=
  λ flt db,
    match audit_insert_fault flt with
    | Some _ => (Returned tt, db)
    | None =>
        (Returned tt,
         mk_db (users db) (objects db) (objects_seq db)
               (audit_logs db ++
                [mk_audit event_type user_id object_id details success]))
    end.

(** The dictionary [get_audit_statistics] returns. *)
Record audit_statistics := mk_statistics {
  total_events : nat;
  success_events : nat;
  failed_events : nat;
  events_by_type : list (string * nat);
}.

(** [SELECT COUNT( * ) FROM audit_logs WHERE success = ?] *)
Definition count_success (flag : bool) (logs : list audit_row) : nat :=
  length (filter (λ r, a_success r = flag) logs).

(** The number of rows of one group of [GROUP BY event_type]. *)
Definition count_type (event_type : string) (logs : list audit_row) : nat :=
  length (filter (λ r, a_event_type r = event_type) logs).

(** [ORDER BY count DESC] *)
Definition count_desc (x y : string * nat) : Prop := (y.2 ≤ x.2)%nat.

#[global] Instance count_desc_dec x y : Decision (count_desc x y).
Proof. unfold count_desc. apply _. Defined.

(** [SELECT event_type, COUNT( * ) as count FROM audit_logs
     GROUP BY event_type ORDER BY count DESC] *)
Definition group_by_type (logs : list audit_row) : list (string * nat) :=
  merge_sort count_desc
    ((λ t, (t, count_type t logs)) <$> remove_dups (a_event_type <$> logs)).

(** [get_audit_statistics].  Its four queries read [audit_logs], a table for
    which [Faults] has no field, so what the storage collaborator does to
    them is the parameter [select_audit_fault]. *)
Definition get_audit_statistics (select_audit_fault : option string)
  : M audit_statistics := λ flt db,
  match select_audit_fault with
  | Some e => (Raised e, db)
  | None =>
      let logs := audit_logs db in
      (Returned (mk_statistics (length logs)
                               (count_success true logs)
                               (count_success false logs)
                               (group_by_type logs)), db)
  end.

End Audit.

(** ** SQL fragments used by the listings *)

Module Sql.

(** ASCII case folding, as SQLite's [LIKE] does it. *)
Definition fold_case (c : ascii) : ascii :=
  let n := N_of_ascii c in
  if ((65 <=? n) && (n <=? 90))%N then ascii_of_N (n + 32) else c.

(** [s LIKE pattern] on lists of characters: [%] matches any run of
    characters, [_] exactly one, anything else itself up to ASCII case. *)
Fixpoint like_chars (pattern s : list ascii) : bool :=
  match pattern with
  | [] => match s with [] => true | _ => false end
  | c :: pattern' =>
      if Ascii.eqb c "%" then
        (fix any_run (s : list ascii) : bool :=
           like_chars pattern' s ||
           match s with [] => false | _ :: s' => any_run s' end) s
      else
        match s with
        | [] => false
        | d :: s' =>
            (Ascii.eqb c "_" || Ascii.eqb (fold_case c) (fold_case d))
            && like_chars pattern' s'
        end
  end.

Definition like (s pattern : string) : bool :=
  like_chars (list_ascii_of_string pattern) (list_ascii_of_string s).

Definition row_level (r : Z * object_row) : Z := o_security_level (r.2).
Definition row_name (r : Z * object_row) : string := o_name (r.2).

(** [ORDER BY security_level DESC, name ASC] *)
Definition level_desc_name_asc (x y : Z * object_row) : Prop :=
  row_level y < row_level x ∨
  (row_level x = row_level y ∧ String.leb (row_name x) (row_name y) = true).

(** [ORDER BY name ASC] *)
Definition name_asc (x y : Z * object_row) : Prop :=
  String.leb (row_name x) (row_name y) = true.

#[global] Instance level_desc_name_asc_dec x y :
  Decision (level_desc_name_asc x y).
Proof. unfold level_desc_name_asc. apply _. Defined.

#[global] Instance name_asc_dec x y : Decision (name_asc x y).
Proof. unfold name_asc. apply _. Defined.

(** [SELECT ... FROM objects WHERE cond ORDER BY order], then [fetchall()]. *)
Definition select_objects_where
    (cond : Z * object_row → bool)
    (order : relation (Z * object_row)) `{∀ x y, Decision (order x y)}
  : M (list (Z * object_row)) :=
  rows ← Database.select_all_objects;
  mret (merge_sort order (filter (λ r, cond r = true) rows)).

End Sql.

(** ** access_manager.py *)

(** A row of the listings: the columns [id, name, security_level, owner_id]. *)
Record object_summary := mk_summary {
  s_id : Z;
  s_name : string;
  s_security_level : Z;
  s_owner_id : Z;
}.

Definition summary_of (r : Z * object_row) : object_summary :=
  mk_summary (r.1) (o_name (r.2)) (o_security_level (r.2)) (o_owner_id (r.2)).

Module AccessManager.
Import SecurityMonitor Database Audit.

Definition request_read_access (user_id object_id : Z)
  : M (option (string * string)) :=
  user_row ← select_user user_id;
  object_row ← select_object object_id;
  match user_row, object_row with
  | Some u, Some o =>
      let user_level := u_security_level u in
      let object_level := o_security_level o in
      if negb (can_view_object_existence user_level object_level) then
        log_event user_id "read_access" (Some object_id)
          ("Cannot view object existence - User level: " +:+ pretty user_level
           +:+ ", Object level: " +:+ pretty object_level) false;;
        mret None
      else if check_read_access user_level object_level then
        log_event user_id "read_access" (Some object_id)
          (get_access_description user_level object_level "read") true;;
        mret (Some (o_name o, o_content o))
      else
        log_event user_id "read_access" (Some object_id)
          (get_access_description user_level object_level "read") false;;
        mret None
  | _, _ =>
      log_event user_id "read_access" (Some object_id)
        "User or object not found" false;;
      mret None
  end.

Definition request_write_access (user_id object_id : Z) (new_content : string)
  : M bool :=
  user_row ← select_user user_id;
  object_row ← select_object object_id;
  match user_row, object_row with
  | Some u, Some o =>
      let user_level := u_security_level u in
      let object_level := o_security_level o in
      if check_write_access user_level object_level then
        try_except
          (update_content object_id new_content;;
           log_event user_id "write_access" (Some object_id)
             (get_access_description user_level object_level "write") true;;
           mret true)
          (λ e,
           log_event user_id "write_access" (Some object_id)
             ("Database error: " +:+ e) false;;
           mret false)
      else
        log_event user_id "write_access" (Some object_id)
          (get_access_description user_level object_level "write") false;;
        mret false
  | _, _ =>
      log_event user_id "write_access" (Some object_id)
        "User or object not found" false;;
      mret false
  end.

Definition request_object_creation
    (user_id : Z) (object_name content : string) (security_level : Z)
  : M bool :=
  user_row ← select_user user_id;
  match user_row with
  | None =>
      log_event user_id "create_object" None "User not found" false;;
      mret false
  | Some u =>
      let user_level := u_security_level u in
      if negb (validate_security_level security_level) then
        log_event user_id "create_object" None
          ("Invalid security level: " +:+ pretty security_level) false;;
        mret false
      else if truthy (u_is_super_admin u) || (security_level <=? user_level)
      then
        try_except
          (object_id ← insert_object
                         (mk_object object_name content security_level user_id);
           log_event user_id "create_object" (Some object_id)
             ("Object created with level: " +:+ pretty security_level) true;;
           mret true)
          (λ e,
           log_event user_id "create_object" None
             ("Database error: " +:+ e) false;;
           mret false)
      else
        log_event user_id "create_object" None
          ("Cannot create object at level " +:+ pretty security_level
           +:+ " (user level: " +:+ pretty user_level +:+ ")") false;;
        mret false
  end.

Definition request_object_deletion (user_id object_id : Z) : M bool :=
  user_row ← select_user user_id;
  object_row ← select_object object_id;
  match user_row, object_row with
  | Some u, Some o =>
      let user_level := u_security_level u in
      let is_super_admin := u_is_super_admin u in
      let object_level := o_security_level o in
      let is_owner := bool_decide (user_id = o_owner_id o) in
      if check_delete_access user_level object_level is_owner
           (truthy is_super_admin)
      then
        try_except
          (delete_object object_id;;
           log_event user_id "delete_object" (Some object_id)
             "Object deleted successfully" true;;
           mret true)
          (λ e,
           log_event user_id "delete_object" (Some object_id)
             ("Database error: " +:+ e) false;;
           mret false)
      else
        log_event user_id "delete_object" (Some object_id)
          ("Delete access denied - Owner: " +:+ str_bool is_owner
           +:+ ", Super Admin: " +:+ pretty is_super_admin) false;;
        mret false
  | _, _ =>
      log_event user_id "delete_object" (Some object_id)
        "User or object not found" false;;
      mret false
  end.

Definition get_accessible_objects (user_id : Z) : M (list object_summary) :=
  user_row ← select_user user_id;
  match user_row with
  | None => mret []
  | Some u =>
      let user_level := u_security_level u in
      objects ← Sql.select_objects_where
                  (λ r, Sql.row_level r <=? user_level)
                  Sql.level_desc_name_asc;
      mret (summary_of <$> objects)
  end.

End AccessManager.

(** ** object_manager.py: the read model *)

(** A row of [get_objects_by_level]: the columns [id, name, owner_id]. *)
Record object_brief := mk_brief {
  b_id : Z;
  b_name : string;
  b_owner_id : Z;
}.

Definition brief_of (r : Z * object_row) : object_brief :=
  mk_brief (r.1) (o_name (r.2)) (o_owner_id (r.2)).

Module ObjectManager.
Import Database.

Definition _get_user_security_level (user_id : Z) : M Z :=
  user ← select_user user_id;
  mret (match user with Some u => u_security_level u | None => 0 end).

Definition search_objects (user_id : Z) (search_term : string)
  : M (list object_summary) :=
  user_level ← _get_user_security_level user_id;
  objects ← Sql.select_objects_where
              (λ r, Sql.like (Sql.row_name r) ("%" +:+ search_term +:+ "%")
                    && (Sql.row_level r <=? user_level))
              Sql.level_desc_name_asc;
  mret (summary_of <$> objects).

Definition get_objects_by_level (user_id security_level : Z)
  : M (list object_brief) :=
  user_level ← _get_user_security_level user_id;
  if security_level >? user_level then mret []
  else
    objects ← Sql.select_objects_where
                (λ r, Sql.row_level r =? security_level)
                Sql.name_asc;
    mret (brief_of <$> objects).

(** The dictionary [read_object] returns: either [name], [content] and
    [access = granted], or [access = denied] with a message. *)
Inductive read_result :=
  | ReadGranted (name content : string)
  | ReadDenied (message : string).

(** The dictionary [get_object_info] returns.  Its [created_at] entry is a
    timestamp filled in by SQLite and is left out, like the column. *)
Record object_info := mk_info {
  i_name : string;
  i_security_level : Z;
  i_owner_id : Z;
}.

Definition create_object
    (user_id : Z) (object_name content : string) (security_level : Z)
  : M (bool * string) :=
  if negb (SecurityMonitor.validate_security_level security_level) then
    mret (false, "Invalid security level"%string)
  else
    success ← AccessManager.request_object_creation
                user_id object_name content security_level;
    if success : bool then mret (true, "Object created successfully"%string)
    else mret (false, "Failed to create object - check permissions"%string).

Definition read_object (user_id object_id : Z) : M read_result :=
  result ← AccessManager.request_read_access user_id object_id;
  match result with
  | Some (object_name, content) => mret (ReadGranted object_name content)
  | None => mret (ReadDenied "Read access denied or object not found")
  end.

Definition update_object (user_id object_id : Z) (new_content : string)
  : M (bool * string) :=
  success ← AccessManager.request_write_access user_id object_id new_content;
  if success : bool then mret (true, "Object updated successfully"%string)
  else mret (false, "Write access denied or object not found"%string).

Definition delete_object (user_id object_id : Z) : M (bool * string) :=
  success ← AccessManager.request_object_deletion user_id object_id;
  if success : bool then mret (true, "Object deleted successfully"%string)
  else mret (false, "Delete access denied or object not found"%string).

Definition list_user_objects (user_id : Z) : M (list object_summary) :=
  objects ← AccessManager.get_accessible_objects user_id;
  mret ((λ obj, mk_summary (s_id obj) (s_name obj) (s_security_level obj)
                           (s_owner_id obj)) <$> objects).

Definition get_object_info (user_id object_id : Z) : M (option object_info) :=
  obj ← select_object object_id;
  match obj with
  | None => mret None
  | Some o =>
      user_level ← _get_user_security_level user_id;
      if negb (SecurityMonitor.can_view_object_existence
                 user_level (o_security_level o))
      then mret None
      else mret (Some (mk_info (o_name o) (o_security_level o)
                               (o_owner_id o)))
  end.

End ObjectManager.

(** ** auth.py: changing a clearance *)

Module Auth.
Import Database.

(** The row [u] after [UPDATE users SET security_level = new_level]. *)
Definition with_level (new_level : Z) (u : user_row) : user_row :=
  mk_user new_level (u_is_super_admin u).

Definition set_users (f : gmap Z user_row → gmap Z user_row) (db : Db) : Db :=
  mk_db (f (users db)) (objects db) (objects_seq db) (audit_logs db).

(** [change_user_security_level]; its messages are printed, not returned.
    An [UPDATE ... WHERE id = ?] that matches no row is not an error. *)
Definition change_user_security_level
    (target_user_id new_level : Z) (requester_is_super_admin : bool)
  : M bool :=
  if negb requester_is_super_admin then mret false
  else if negb (bool_decide (new_level ∈ [0; 1; 2; 3])) then mret false
  else
    try_except
      (execute_and_commit (λ db,
         (tt, set_users (alter (with_level new_level) target_user_id) db));;
       mret true)
      (λ e, mret false).

End Auth.

(** ** Vocabulary of the statements *)

(** [db'] is [db] with exactly one more audit record, [r], at the end. *)
Definition appended (db db' : Db) (r : audit_row) : Prop :=
  audit_logs db' = audit_logs db ++ [r].

(** The row [o] after [UPDATE objects SET content = new_content]. *)
Definition with_content (new_content : string) (o : object_row) : object_row :=
  mk_object (o_name o) new_content (o_security_level o) (o_owner_id o).

(** The storage collaborator answers both loading queries. *)
Definition loads_succeed (flt : Faults) : Prop :=
  select_users_fault flt = None ∧ select_objects_fault flt = None.

(** The storage collaborator executes and commits the mutation. *)
Definition mutation_succeeds (flt : Faults) : Prop :=
  execute_dml_fault flt = None ∧ commit_fault flt = None.

(** The mutation raises an exception with text [e], at execute or at commit. *)
Definition mutation_raises (flt : Faults) (e : string) : Prop :=
  execute_dml_fault flt = Some e ∨
  (execute_dml_fault flt = None ∧ commit_fault flt = Some e).

(** A call returned normally after exactly one call of [log_event]: when the
    audit sink accepts the insert the log has grown by exactly one record, for
    subject [user_id], whose success flag is [ok] of the returned value; when
    the sink fails the log is as before. *)
Definition audited_once {A} (ok : A → bool) (user_id : Z)
    (flt : Faults) (db : Db) (run : outcome A * Db) : Prop :=
  ∃ v, run.1 = Returned v ∧
       match audit_insert_fault flt with
       | None => ∃ r, appended db (run.2) r ∧
                      a_success r = ok v ∧ a_user_id r = user_id
       | Some _ => audit_logs (run.2) = audit_logs db
       end.

(** Python truthiness of the value [request_read_access] returns. *)
Definition granted_read (v : option (string * string)) : bool :=
  match v with Some _ => true | None => false end.

(** A call returned normally and the audit log has grown by exactly one
    record, for subject [user_id], whose success flag is true exactly when the
    returned value is the granted one. *)
Definition one_audit_record {A} (ok : A → bool) (user_id : Z)
    (db : Db) (run : outcome A * Db) : Prop :=
  ∃ v r, run.1 = Returned v ∧ appended db (run.2) r ∧
         (a_success r = true ↔ ok v = true) ∧ a_user_id r = user_id.


(** A call returned a not-ok value after one call of [log_event] with a
    failure record for subject [user_id]: when the audit insert succeeds the
    log has grown by exactly that record, and when it fails the log is as
    before. *)
Definition refused_and_audited {A} (ok : A → bool) (user_id : Z)
    (flt : Faults) (db : Db) (run : outcome A * Db) : Prop :=
  ∃ v, run.1 = Returned v ∧ ok v = false ∧
       match audit_insert_fault flt with
       | None => ∃ r, appended db (run.2) r ∧
                      a_success r = false ∧ a_user_id r = user_id
       | Some _ => audit_logs (run.2) = audit_logs db
       end.

(** The mutation neither raises at execute nor at commit. *)
Definition mutation_ok (flt : Faults) : bool :=
  match execute_dml_fault flt, commit_fault flt with
  | None, None => true
  | _, _ => false
  end.

(** The kinds of failure of the error taxonomy. *)
Inductive error_kind := NotFound | PolicyDenied | InvalidInput | StorageFailure.

(** When a read request fails with each kind: the subject or object is
    missing, or the policy engine refuses visibility or read access (which
    includes levels outside the defined set).  A read validates no input and
    mutates nothing. *)
Definition read_error (db : Db) (user_id object_id : Z) (k : error_kind)
  : Prop :=
  match k with
  | NotFound => users db !! user_id = None ∨ objects db !! object_id = None
  | PolicyDenied =>
      ∃ u o, users db !! user_id = Some u ∧ objects db !! object_id = Some o ∧
             (SecurityMonitor.can_view_object_existence
                (u_security_level u) (o_security_level o) = false ∨
              SecurityMonitor.check_read_access
                (u_security_level u) (o_security_level o) = false)
  | InvalidInput | StorageFailure => False
  end.

(** When a write request fails with each kind. *)
Definition write_error (flt : Faults) (db : Db) (user_id object_id : Z)
    (k : error_kind) : Prop :=
  match k with
  | NotFound => users db !! user_id = None ∨ objects db !! object_id = None
  | PolicyDenied =>
      ∃ u o, users db !! user_id = Some u ∧ objects db !! object_id = Some o ∧
             SecurityMonitor.check_write_access
               (u_security_level u) (o_security_level o) = false
  | InvalidInput => False
  | StorageFailure => ∃ e, mutation_raises flt e
  end.

(** When a creation request fails with each kind. *)
Definition create_error (flt : Faults) (db : Db) (user_id level : Z)
    (k : error_kind) : Prop :=
  match k with
  | NotFound => users db !! user_id = None
  | PolicyDenied =>
      ∃ u, users db !! user_id = Some u ∧
           u_is_super_admin u = 0 ∧ u_security_level u < level
  | InvalidInput => ¬ (0 ≤ level ≤ 3)
  | StorageFailure => ∃ e, mutation_raises flt e
  end.

(** When a deletion request fails with each kind. *)
Definition delete_error (flt : Faults) (db : Db) (user_id object_id : Z)
    (k : error_kind) : Prop :=
  match k with
  | NotFound => users db !! user_id = None ∨ objects db !! object_id = None
  | PolicyDenied =>
      ∃ u o, users db !! user_id = Some u ∧ objects db !! object_id = Some o ∧
             SecurityMonitor.check_delete_access
               (u_security_level u) (o_security_level o)
               (bool_decide (user_id = o_owner_id o))
               (truthy (u_is_super_admin u)) = false
  | InvalidInput => False
  | StorageFailure => ∃ e, mutation_raises flt e
  end.

(** The data-model invariant on objects: every level is a defined level. *)
Definition object_levels_defined (db : Db) : Prop :=
  ∀ id o, objects db !! id = Some o → 0 ≤ o_security_level o ≤ 3.

(** "Descending level, then ascending name", read off the rows a listing
    returns. *)
Definition summary_order (x y : object_summary) : Prop :=
  s_security_level y < s_security_level x ∨
  (s_security_level x = s_security_level y ∧
   String.leb (s_name x) (s_name y) = true).

(** "Ascending name" on the rows of [get_objects_by_level]. *)
Definition brief_order (x y : object_brief) : Prop :=
  String.leb (b_name x) (b_name y) = true.

(** The subject may read the object: both exist, both levels are defined and
    the subject's level is at least the object's. *)
Definition readable (db : Db) (user_id object_id : Z) (o : object_row) : Prop :=
  ∃ u, users db !! user_id = Some u ∧ objects db !! object_id = Some o ∧
       0 ≤ o_security_level o ∧ o_security_level o ≤ u_security_level u ∧
       u_security_level u ≤ 3.

(** The subject may write the object: both exist, both levels are defined and
    the subject's level is at most the object's. *)
Definition writable (db : Db) (user_id object_id : Z) (o : object_row) : Prop :=
  ∃ u, users db !! user_id = Some u ∧ objects db !! object_id = Some o ∧
       0 ≤ u_security_level u ∧ u_security_level u ≤ o_security_level o ∧
       o_security_level o ≤ 3.

(** The subject may delete the object: both exist and the subject is either a
    super-admin at level 3 or the owner at the object's own level. *)
Definition deletable (db : Db) (user_id object_id : Z) (o : object_row) : Prop :=
  ∃ u, users db !! user_id = Some u ∧ objects db !! object_id = Some o ∧
       ((u_is_super_admin u ≠ 0 ∧ u_security_level u = 3) ∨
        (user_id = o_owner_id o ∧ u_security_level u = o_security_level o)).

(** The audit log of [db'] is that of [db], possibly with one more record at
    the end. *)
Definition log_extended (db db' : Db) : Prop :=
  audit_logs db' = audit_logs db ∨ ∃ r, appended db db' r.

(** A creation of [row] by the subject is authorised: the subject exists, the
    level is defined, and the subject is a super-admin or the level is at most
    its own. *)
Definition creatable (db : Db) (user_id : Z) (row : object_row) : Prop :=
  ∃ u, users db !! user_id = Some u ∧
       0 ≤ o_security_level row ≤ 3 ∧
       o_owner_id row = user_id ∧
       (u_is_super_admin u ≠ 0 ∨ o_security_level row ≤ u_security_level u).

(** The level the object directory uses for a user id: the stored level, or
    0 when the id is not in the [users] table. *)
Definition directory_level (db : Db) (user_id : Z) : Z :=
  match users db !! user_id with
  | Some u => u_security_level u
  | None => 0
  end.

(** Two strings are equal up to the case of ASCII letters. *)
Definition same_up_to_case (s t : string) : Prop :=
  Sql.fold_case <$> list_ascii_of_string s
  = Sql.fold_case <$> list_ascii_of_string t.

(** The statistics read after a call count exactly one more event than the
    statistics read before it, a success when the returned value is the
    granted one and a failure otherwise. *)
Definition counted_once {A} (ok : A → bool)
    (before after : Audit.audit_statistics) (run : outcome A * Db) : Prop :=
  ∃ v, run.1 = Returned v ∧
       Audit.total_events after = S (Audit.total_events before) ∧
       Audit.success_events after
         = (Audit.success_events before + if ok v then 1 else 0)%nat ∧
       Audit.failed_events after
         = (Audit.failed_events before + if ok v then 0 else 1)%nat.

(** Two databases have the same subjects and the same objects at or below
    level [L]; above [L] they may differ in any way. *)
Definition agree_up_to (L : Z) (db1 db2 : Db) : Prop :=
  users db1 = users db2 ∧
  ∀ id o, o_security_level o ≤ L →
          (objects db1 !! id = Some o ↔ objects db2 !! id = Some o).

(** The statistics read after the call [run] count it once, against the
    statistics [before] read ahead of it. *)
Definition counts_once {A} (ok : A → bool) (flt : Faults)
    (before : Audit.audit_statistics) (run : outcome A * Db) : Prop :=
  ∃ after,
    (Audit.get_audit_statistics None flt (run.2)).1 = Returned after ∧
    counted_once ok before after run.

(** The data-model invariant on subjects: every level is a defined level. *)
Definition user_levels_defined (db : Db) : Prop :=
  ∀ id u, users db !! id = Some u → 0 ≤ u_security_level u ≤ 3.

(** ** Sample data used by the examples below *)

Module Sample.

(** Three users: an administrator at Top Secret, a clerk at Confidential and
    an analyst at Secret; four objects, the last rowid handed out being 4. *)
Definition db : Db :=
  mk_db
    (list_to_map [(1, mk_user 3 1); (2, mk_user 1 0); (3, mk_user 2 0)])
    (list_to_map
       [ (1, mk_object "alpha" "a" 0 2); (2, mk_object "beta" "b" 2 3);
         (3, mk_object "Gamma" "c" 1 2); (4, mk_object "delta" "d" 1 2) ])
    4 [].

(** The same users after every object was deleted, the last rowid handed out
    having been 6. *)
Definition db_empty : Db :=
  mk_db (users db) ∅ 6 [].

(** The storage collaborator fails while the subject is being loaded. *)
Definition load_failure : Faults :=
  mk_faults (Some "disk I/O error"%string) None None None None.

(** The storage collaborator fails at commit time. *)
Definition commit_failure : Faults :=
  mk_faults None None None (Some "database is locked"%string) None.

(** The commit fails and leaves the write transaction of the mediator's
    connection open, so that the insert [log_event] attempts on its own
    connection fails as well. *)
Definition locked_commit : Faults :=
  mk_faults None None None (Some "database is locked"%string)
            (Some "database is locked"%string).

End Sample.

(** * Properties of the policy engine *)

Section PolicyEngine.
Import Config SecurityMonitor.

Lemma level_in_range (l : Z) : level_in l = true ↔ 0 ≤ l ≤ 3.
Proof.
  unfold level_in. rewrite bool_decide_eq_true. split.
  - intros [name Hname]. unfold SECURITY_LEVELS in Hname.
    apply elem_of_list_to_map_2 in Hname.
    repeat (apply elem_of_cons in Hname as [Heq | Hname];
            [ injection Heq as -> _; lia | ]).
    by apply elem_of_nil in Hname.
  - intros Hl.
    assert (l = 0 ∨ l = 1 ∨ l = 2 ∨ l = 3) as Hcases by lia.
    destruct Hcases as [-> | [-> | [-> | ->]]]; vm_compute; eauto.
Qed.

Lemma level_in_out_of_range (l : Z) : ¬ (0 ≤ l ≤ 3) → level_in l = false.
Proof.
  intros Hl. destruct (level_in l) eqn:E; [ | done ].
  apply level_in_range in E. contradiction.
Qed.

(** C2. On the defined levels 0..3 the read check is [a >= b] and the write
    check is [a <= b]; as soon as one of the two levels is outside the defined
    set, both checks answer false. *)
Theorem check_access_on_levels (a b : Z) :
  (0 ≤ a ≤ 3 ∧ 0 ≤ b ≤ 3 →
     check_read_access a b = (a >=? b) ∧
     check_write_access a b = (a <=? b)) ∧
  (¬ (0 ≤ a ≤ 3) ∨ ¬ (0 ≤ b ≤ 3) →
     check_read_access a b = false ∧ check_write_access a b = false).
Proof.
  unfold check_read_access, check_write_access. split.
  - intros [Ha Hb].
    apply level_in_range in Ha, Hb. by rewrite Ha, Hb.
  - intros [Ha | Hb].
    + by rewrite (level_in_out_of_range a Ha).
    + rewrite (level_in_out_of_range b Hb). by rewrite orb_true_r.
Qed.

Lemma check_access_on_levels_witness :
  (check_read_access 2 1 = true ∧ check_write_access 2 1 = false) ∧
  (check_read_access 7 1 = false ∧ check_write_access 7 1 = false).
Proof.
  split.
  - apply (proj1 (check_access_on_levels 2 1)). lia.
  - apply (proj2 (check_access_on_levels 7 1)). left. lia.
Defined.

(** C3, as stated, fails: the visibility predicate has no validity guard, so
    for levels 5 and 4 it answers true where the read check answers false. *)
Lemma can_view_differs_from_read_outside_levels :
  can_view_object_existence 5 4 ≠ check_read_access 5 4.
Proof. vm_compute. discriminate. Qed.

(** C3, amended. On the defined levels the visibility predicate and the read
    check agree; on all integers the visibility predicate is [a >= b], and
    whatever the read check grants is visible. *)
Theorem can_view_agrees_with_read_on_levels (a b : Z) :
  (0 ≤ a ≤ 3 ∧ 0 ≤ b ≤ 3 →
     can_view_object_existence a b = check_read_access a b) ∧
  can_view_object_existence a b = (a >=? b) ∧
  (check_read_access a b = true → can_view_object_existence a b = true).
Proof.
  unfold can_view_object_existence, check_read_access. split_and!.
  - intros [Ha Hb]. apply level_in_range in Ha, Hb. by rewrite Ha, Hb.
  - done.
  - by destruct (negb (level_in a) || negb (level_in b)).
Qed.

Lemma can_view_agrees_with_read_on_levels_witness :
  can_view_object_existence 3 0 = check_read_access 3 0 ∧
  can_view_object_existence 2 2 = true.
Proof.
  split.
  - apply (proj1 (can_view_agrees_with_read_on_levels 3 0)). lia.
  - apply (proj2 (proj2 (can_view_agrees_with_read_on_levels 2 2))).
    reflexivity.
Defined.

(** C4. Deletion is granted exactly to a super-admin at level 3 or to an
    owner whose level equals the object's level; in particular a level-3
    super-admin may delete anything, and an owner at another level may not. *)
Theorem check_delete_access_iff
    (user_level object_level : Z) (is_owner is_super_admin : bool) :
  (check_delete_access user_level object_level is_owner is_super_admin = true
   ↔ (is_super_admin = true ∧ user_level = 3) ∨
     (is_owner = true ∧ user_level = object_level)) ∧
  check_delete_access 3 object_level is_owner true = true ∧
  (user_level ≠ object_level →
   check_delete_access user_level object_level true false = false).
Proof.
  unfold check_delete_access. split_and!.
  - destruct (Z.eqb_spec user_level 3), (Z.eqb_spec user_level object_level),
      is_super_admin, is_owner; simpl; intuition congruence.
  - done.
  - intros Hne. simpl. by destruct (Z.eqb_spec user_level object_level).
Qed.

Lemma check_delete_access_iff_witness :
  check_delete_access 2 1 true false = false.
Proof.
  apply (proj2 (proj2 (check_delete_access_iff 2 1 true false))). lia.
Defined.

End PolicyEngine.

(** * Properties of the access mediator *)

Section Mediator.
Import Config SecurityMonitor Database Audit AccessManager.

(** Unfolds the monadic plumbing down to the case analysis of the source. *)
Ltac run_M :=
  unfold request_read_access, request_write_access, request_object_creation,
    request_object_deletion, get_accessible_objects,
    Sql.select_objects_where, select_all_objects,
    update_content, delete_object, insert_object, execute_and_commit,
    try_except, select_user, select_object, log_event, set_objects,
    mbind, M_bind, mret, M_ret in *;
  simpl in *.





(** Every path of the four request operations ends in one [log_event] and a
    return, as long as the two loading queries answer. *)
Lemma request_read_access_audited flt db user_id object_id :
  loads_succeed flt →
  audited_once granted_read user_id flt db
    (request_read_access user_id object_id flt db).
Proof.
  intros [Hsu Hso]. unfold audited_once, appended. run_M.
  rewrite Hsu, Hso.
  repeat case_match; simplify_eq/=; eexists; (split; [ done | ]);
    first [ done | by eexists ].
Qed.

Lemma request_write_access_audited flt db user_id object_id new_content :
  loads_succeed flt →
  audited_once id user_id flt db
    (request_write_access user_id object_id new_content flt db).
Proof.
  intros [Hsu Hso]. unfold audited_once, appended. run_M.
  rewrite Hsu, Hso.
  repeat case_match; simplify_eq/=; eexists; (split; [ done | ]);
    first [ done | by eexists ].
Qed.

Lemma request_object_creation_audited flt db user_id name content level :
  loads_succeed flt →
  audited_once id user_id flt db
    (request_object_creation user_id name content level flt db).
Proof.
  intros [Hsu Hso]. unfold audited_once, appended. run_M.
  rewrite Hsu.
  repeat case_match; simplify_eq/=; eexists; (split; [ done | ]);
    first [ done | by eexists ].
Qed.

Lemma request_object_deletion_audited flt db user_id object_id :
  loads_succeed flt →
  audited_once id user_id flt db
    (request_object_deletion user_id object_id flt db).
Proof.
  intros [Hsu Hso]. unfold audited_once, appended. run_M.
  rewrite Hsu, Hso.
  repeat case_match; simplify_eq/=; eexists; (split; [ done | ]);
    first [ done | by eexists ].
Qed.

(** The listing never touches the database, whatever the collaborator does. *)
Lemma get_accessible_objects_pure flt db user_id :
  (get_accessible_objects user_id flt db).2 = db.
Proof. run_M. by repeat (case_match; simplify_eq/=). Qed.

Lemma audited_once_one_record {A} (ok : A → bool) user_id flt db run :
  audit_insert_fault flt = None →
  audited_once ok user_id flt db run → one_audit_record ok user_id db run.
Proof.
  intros Hau (v & Hv & Hlog). rewrite Hau in Hlog.
  destruct Hlog as (r & Hr & Hs & Hid).
  exists v, r. split_and!; [ done | done | by rewrite Hs | done ].
Qed.

(** C1, as stated, fails: the listing returns without any audit record. *)
Lemma listing_writes_no_audit_record :
  (∃ v, (get_accessible_objects 3 no_faults Sample.db).1 = Returned v) ∧
  audit_logs (get_accessible_objects 3 no_faults Sample.db).2
    = audit_logs Sample.db.
Proof. split; [ by eexists | reflexivity ]. Qed.

(** C1, amended. Each of the four request operations, on every path (missing
    subject or object, invalid level, denial, storage error during the
    mutation, grant), returns after appending exactly one audit record whose
    success flag is true exactly when the returned value is the granted one,
    provided the loading queries answer and the audit sink accepts the insert.
    The listing appends no audit record. *)
Theorem request_operations_audit_once
    (flt : Faults) (db : Db) (user_id object_id level : Z)
    (new_content name content : string) :
  loads_succeed flt →
  audit_insert_fault flt = None →
  one_audit_record granted_read user_id db
    (request_read_access user_id object_id flt db) ∧
  one_audit_record id user_id db
    (request_write_access user_id object_id new_content flt db) ∧
  one_audit_record id user_id db
    (request_object_creation user_id name content level flt db) ∧
  one_audit_record id user_id db
    (request_object_deletion user_id object_id flt db) ∧
  audit_logs (get_accessible_objects user_id flt db).2 = audit_logs db.
Proof.
  intros Hloads Hau. split_and!.
  - eapply audited_once_one_record, request_read_access_audited; done.
  - eapply audited_once_one_record, request_write_access_audited; done.
  - eapply audited_once_one_record, request_object_creation_audited; done.
  - eapply audited_once_one_record, request_object_deletion_audited; done.
  - by rewrite get_accessible_objects_pure.
Qed.

Lemma request_operations_audit_once_witness :
  one_audit_record granted_read 2 Sample.db
    (request_read_access 2 2 Sample.commit_failure Sample.db) ∧
  one_audit_record id 2 Sample.db
    (request_write_access 2 2 "zz" Sample.commit_failure Sample.db).
Proof.
  destruct (request_operations_audit_once Sample.commit_failure Sample.db
              2 2 1 "zz" "n" "c" (conj eq_refl eq_refl) eq_refl)
    as (Hread & Hwrite & _).
  exact (conj Hread Hwrite).
Defined.

(** C7, as stated, fails: an error raised by the storage collaborator while
    the subject is being loaded leaves the mediator as an exception, and no
    audit record is written. *)
Lemma load_failure_escapes :
  request_read_access 2 2 Sample.load_failure Sample.db
    = (Raised "disk I/O error"%string, Sample.db) ∧
  request_object_deletion 2 2 Sample.load_failure Sample.db
    = (Raised "disk I/O error"%string, Sample.db).
Proof. split; reflexivity. Qed.

(** The value each request operation returns when the loads answer. *)
Lemma request_read_access_ok flt db user_id object_id :
  loads_succeed flt →
  ∃ v, (request_read_access user_id object_id flt db).1 = Returned v ∧
       granted_read v
       = match users db !! user_id, objects db !! object_id with
         | Some u, Some o =>
             can_view_object_existence (u_security_level u)
               (o_security_level o)
             && check_read_access (u_security_level u) (o_security_level o)
         | _, _ => false
         end.
Proof.
  intros [Hsu Hso]. run_M. rewrite Hsu, Hso.
  destruct (users db !! user_id) as [u | ],
    (objects db !! object_id) as [o | ]; simpl;
    try (destruct (audit_insert_fault flt); by eexists).
  destruct (can_view_object_existence _ _); simpl;
    [ destruct (check_read_access _ _) | ];
    destruct (audit_insert_fault flt); by eexists.
Qed.

Lemma request_write_access_ok flt db user_id object_id new_content :
  loads_succeed flt →
  (request_write_access user_id object_id new_content flt db).1
  = Returned
      (match users db !! user_id, objects db !! object_id with
       | Some u, Some o =>
           check_write_access (u_security_level u) (o_security_level o)
           && mutation_ok flt
       | _, _ => false
       end).
Proof.
  intros [Hsu Hso]. unfold mutation_ok. run_M. rewrite Hsu, Hso.
  by repeat (case_match; simplify_eq/=).
Qed.

Lemma request_object_creation_ok flt db user_id name content level :
  loads_succeed flt →
  (request_object_creation user_id name content level flt db).1
  = Returned
      (match users db !! user_id with
       | Some u =>
           validate_security_level level
           && (truthy (u_is_super_admin u)
               || (level <=? u_security_level u))
           && mutation_ok flt
       | None => false
       end).
Proof.
  intros [Hsu Hso]. unfold mutation_ok. run_M. rewrite Hsu.
  destruct (users db !! user_id) as [u | ]; simpl;
    [ | by destruct (audit_insert_fault flt) ].
  destruct (validate_security_level level); simpl;
    [ | by destruct (audit_insert_fault flt) ].
  destruct (truthy (u_is_super_admin u) || (level <=? u_security_level u));
    simpl;
    [ destruct (execute_dml_fault flt), (commit_fault flt); simpl | ];
    by destruct (audit_insert_fault flt).
Qed.

Lemma request_object_deletion_ok flt db user_id object_id :
  loads_succeed flt →
  (request_object_deletion user_id object_id flt db).1
  = Returned
      (match users db !! user_id, objects db !! object_id with
       | Some u, Some o =>
           check_delete_access (u_security_level u) (o_security_level o)
             (bool_decide (user_id = o_owner_id o))
             (truthy (u_is_super_admin u))
           && mutation_ok flt
       | _, _ => false
       end).
Proof.
  intros [Hsu Hso]. unfold mutation_ok. run_M. rewrite Hsu, Hso.
  by repeat (case_match; simplify_eq/=).
Qed.

Lemma mutation_raises_not_ok flt e : mutation_raises flt e → mutation_ok flt = false.
Proof.
  unfold mutation_ok. intros [-> | [-> ->]]; [ | done ].
  by destruct (commit_fault flt).
Qed.

Lemma mutation_ok_unless_raises flt :
  ¬ (∃ e, mutation_raises flt e) → mutation_ok flt = true.
Proof.
  unfold mutation_ok, mutation_raises. intros Hnone.
  destruct (execute_dml_fault flt) as [e | ] eqn:Hexec;
    [ exfalso; apply Hnone; exists e; by left | ].
  destruct (commit_fault flt) as [e | ] eqn:Hcommit; [ | done ].
  exfalso. apply Hnone. exists e. right. done.
Qed.

Lemma refused_of_audited {A} (ok : A → bool) user_id flt db
    (run : outcome A * Db) v :
  audited_once ok user_id flt db run →
  run.1 = Returned v → ok v = false →
  refused_and_audited ok user_id flt db run.
Proof.
  intros (v' & Hv' & Hlog) Hv Hok.
  assert (v' = v) as -> by congruence.
  exists v. split_and!; [ done | done | ].
  destruct (audit_insert_fault flt); [ done | ].
  destruct Hlog as (r & Hr & Hs & Hid). exists r.
  split_and!; [ done | congruence | done ].
Qed.

(** C7, amended. When the loads answer, each kind of failure -- a missing
    subject or object, a refusal of the policy engine, a level outside the
    defined set, a mutation that raises at execute or at commit -- makes the
    request operation return its not-ok value after handing one failure
    record to the audit sink, no request that meets none of them is refused,
    and the listing returns; no operation raises.  An error raised while the
    subject or the object is being loaded is not caught: the operation
    raises it and leaves the database, audit log included, as it was. *)
Theorem mediator_converts_errors
    (flt : Faults) (db : Db) (user_id object_id level : Z)
    (new_content name content : string) :
  let read := request_read_access user_id object_id flt db in
  let write := request_write_access user_id object_id new_content flt db in
  let create :=
    request_object_creation user_id name content level flt db in
  let delete := request_object_deletion user_id object_id flt db in
  let listing := get_accessible_objects user_id flt db in
  (loads_succeed flt →
     (∀ k, read_error db user_id object_id k →
           refused_and_audited granted_read user_id flt db read) ∧
     (∀ k, write_error flt db user_id object_id k →
           refused_and_audited id user_id flt db write) ∧
     (∀ k, create_error flt db user_id level k →
           refused_and_audited id user_id flt db create) ∧
     (∀ k, delete_error flt db user_id object_id k →
           refused_and_audited id user_id flt db delete) ∧
     ((∀ k, ¬ read_error db user_id object_id k) →
        ∃ v, read.1 = Returned (Some v)) ∧
     ((∀ k, ¬ write_error flt db user_id object_id k) →
        write.1 = Returned true) ∧
     ((∀ k, ¬ create_error flt db user_id level k) →
        create.1 = Returned true) ∧
     ((∀ k, ¬ delete_error flt db user_id object_id k) →
        delete.1 = Returned true) ∧
     (∃ rows, listing.1 = Returned rows)) ∧
  (∀ e, select_users_fault flt = Some e →
     read = (Raised e, db) ∧ write = (Raised e, db) ∧
     create = (Raised e, db) ∧ delete = (Raised e, db) ∧
     listing = (Raised e, db)) ∧
  (∀ e, select_users_fault flt = None → select_objects_fault flt = Some e →
     read = (Raised e, db) ∧ write = (Raised e, db) ∧
     delete = (Raised e, db) ∧
     (is_Some (users db !! user_id) → listing = (Raised e, db))).
Proof.
  cbv zeta. split_and!.
  - intros Hloads.
    destruct (request_read_access_ok flt db user_id object_id Hloads)
      as (v & Hread & Hgranted).
    pose proof (request_write_access_ok flt db user_id object_id new_content
                  Hloads) as Hwrite.
    pose proof (request_object_creation_ok flt db user_id name content level
                  Hloads) as Hcreate.
    pose proof (request_object_deletion_ok flt db user_id object_id Hloads)
      as Hdelete.
    split_and!.
    + intros k Hk.
      eapply refused_of_audited;
        [ by apply request_read_access_audited | exact Hread | ].
      rewrite Hgranted.
      destruct k; simpl in Hk; try done.
      * destruct Hk as [-> | ->]; [ done | by destruct (users db !! user_id) ].
      * destruct Hk as (u & o & -> & -> & [-> | ->]);
          [ done | apply andb_false_r ].
    + intros k Hk.
      eapply refused_of_audited;
        [ by apply request_write_access_audited | exact Hwrite | ].
      unfold id. destruct k; simpl in Hk; try done.
      * destruct Hk as [-> | ->]; [ done | by destruct (users db !! user_id) ].
      * by destruct Hk as (u & o & -> & -> & ->).
      * destruct Hk as [e He]. rewrite (mutation_raises_not_ok _ _ He).
        repeat case_match; try done; apply andb_false_r.
    + intros k Hk.
      eapply refused_of_audited;
        [ by apply request_object_creation_audited | exact Hcreate | ].
      unfold id. destruct k; simpl in Hk.
      * by rewrite Hk.
      * destruct Hk as (u & -> & Hadmin & Hlt). unfold truthy.
        rewrite Hadmin. simpl.
        destruct (Z.leb_spec level (u_security_level u)); [ lia | ].
        by rewrite andb_false_r.
      * apply level_in_out_of_range in Hk. unfold validate_security_level.
        rewrite Hk. by case_match.
      * destruct Hk as [e He]. rewrite (mutation_raises_not_ok _ _ He).
        case_match; [ apply andb_false_r | done ].
    + intros k Hk.
      eapply refused_of_audited;
        [ by apply request_object_deletion_audited | exact Hdelete | ].
      unfold id. destruct k; simpl in Hk; try done.
      * destruct Hk as [-> | ->]; [ done | by destruct (users db !! user_id) ].
      * by destruct Hk as (u & o & -> & -> & ->).
      * destruct Hk as [e He]. rewrite (mutation_raises_not_ok _ _ He).
        repeat case_match; try done; apply andb_false_r.
    + intros Hnone. pose proof (Hnone NotFound) as Hfound.
      pose proof (Hnone PolicyDenied) as Hpolicy. simpl in Hfound, Hpolicy.
      destruct (users db !! user_id) as [u | ]; [ | tauto ].
      destruct (objects db !! object_id) as [o | ]; [ | tauto ].
      destruct v as [v | ]; [ by exists v | ]. exfalso. simpl in Hgranted.
      symmetry in Hgranted. apply andb_false_iff in Hgranted.
      apply Hpolicy. by exists u, o.
    + intros Hnone. pose proof (Hnone NotFound) as Hfound.
      pose proof (Hnone PolicyDenied) as Hpolicy.
      pose proof (Hnone StorageFailure) as Hstorage.
      simpl in Hfound, Hpolicy, Hstorage. rewrite Hwrite.
      destruct (users db !! user_id) as [u | ]; [ | tauto ].
      destruct (objects db !! object_id) as [o | ]; [ | tauto ].
      rewrite (mutation_ok_unless_raises _ Hstorage), andb_true_r.
      destruct (check_write_access _ _) eqn:Hcheck; [ done | ].
      exfalso. apply Hpolicy. by exists u, o.
    + intros Hnone. pose proof (Hnone NotFound) as Hfound.
      pose proof (Hnone PolicyDenied) as Hpolicy.
      pose proof (Hnone InvalidInput) as Hinput.
      pose proof (Hnone StorageFailure) as Hstorage.
      simpl in Hfound, Hpolicy, Hinput, Hstorage. rewrite Hcreate.
      destruct (users db !! user_id) as [u | ]; [ | done ].
      rewrite (mutation_ok_unless_raises _ Hstorage), andb_true_r.
      assert (validate_security_level level = true) as ->.
      { apply level_in_range. lia. }
      simpl. unfold truthy.
      destruct (Z.eqb_spec (u_is_super_admin u) 0) as [Hadmin | ]; [ | done ].
      simpl. destruct (Z.leb_spec level (u_security_level u)); [ done | ].
      exfalso. apply Hpolicy. by exists u.
    + intros Hnone. pose proof (Hnone NotFound) as Hfound.
      pose proof (Hnone PolicyDenied) as Hpolicy.
      pose proof (Hnone StorageFailure) as Hstorage.
      simpl in Hfound, Hpolicy, Hstorage. rewrite Hdelete.
      destruct (users db !! user_id) as [u | ]; [ | tauto ].
      destruct (objects db !! object_id) as [o | ]; [ | tauto ].
      rewrite (mutation_ok_unless_raises _ Hstorage), andb_true_r.
      destruct (check_delete_access _ _ _ _) eqn:Hcheck; [ done | ].
      exfalso. apply Hpolicy. by exists u, o.
    + clear v Hread Hgranted Hwrite Hcreate Hdelete.
      destruct Hloads as [Hsu Hso]. run_M. rewrite Hsu. simpl.
      case_match; simpl; [ rewrite Hso | ]; by eexists.
  - intros e Hsu. run_M. by rewrite Hsu.
  - intros e Hsu Hso. run_M. rewrite Hsu, Hso. simpl.
    split_and!; try done. intros [u ->]. simpl. by rewrite Hso.
Qed.

Lemma mediator_converts_errors_witness :
  refused_and_audited id 2 Sample.locked_commit Sample.db
    (request_write_access 2 2 "zz" Sample.locked_commit Sample.db) ∧
  refused_and_audited id 2 no_faults Sample.db
    (request_object_creation 2 "n" "c" 7 no_faults Sample.db) ∧
  request_object_deletion 2 2 Sample.load_failure Sample.db
    = (Raised "disk I/O error"%string, Sample.db).
Proof.
  destruct (mediator_converts_errors Sample.locked_commit Sample.db
              2 2 7 "zz" "n" "c") as (Hlocked & _ & _).
  destruct (Hlocked (conj eq_refl eq_refl)) as (_ & Hwrite & _).
  destruct (mediator_converts_errors no_faults Sample.db 2 2 7 "zz" "n" "c")
    as (Hworks & _ & _).
  destruct (Hworks (conj eq_refl eq_refl)) as (_ & _ & Hcreate & _).
  destruct (mediator_converts_errors Sample.load_failure Sample.db
              2 2 7 "zz" "n" "c") as (_ & Hload & _).
  destruct (Hload "disk I/O error"%string eq_refl) as (_ & _ & _ & Hdelete & _).
  split_and!.
  - apply (Hwrite StorageFailure). exists "database is locked"%string.
    right. by split.
  - apply (Hcreate InvalidInput). simpl. lia.
  - exact Hdelete.
Defined.

(** C6. Whatever the storage collaborator does, a read of an object id that
    does not resolve and a read of an object that exists but is not visible to
    the subject give the caller the same result; when the loads answer, that
    result is None. *)
Theorem request_read_access_hides_existence
    (flt : Faults) (db_absent db_hidden : Db) (user_id object_id : Z)
    (u : user_row) (o : object_row) :
  objects db_absent !! object_id = None →
  users db_hidden !! user_id = Some u →
  objects db_hidden !! object_id = Some o →
  can_view_object_existence (u_security_level u) (o_security_level o) = false →
  (request_read_access user_id object_id flt db_absent).1
    = (request_read_access user_id object_id flt db_hidden).1 ∧
  (loads_succeed flt →
   (request_read_access user_id object_id flt db_hidden).1 = Returned None).
Proof.
  intros Habsent Hu Ho Hview. unfold loads_succeed. run_M.
  destruct (select_users_fault flt), (select_objects_fault flt); simpl;
    rewrite ?Habsent, ?Hu, ?Ho, ?Hview; simpl;
    (split; [ | intros [? ?]; simplify_eq ]);
    by repeat (case_match; simplify_eq/=).
Qed.

Lemma request_read_access_hides_existence_witness :
  (request_read_access 2 2 no_faults Sample.db_empty).1
    = (request_read_access 2 2 no_faults Sample.db).1 ∧
  (request_read_access 2 2 no_faults Sample.db).1 = Returned None.
Proof.
  destruct (request_read_access_hides_existence no_faults Sample.db_empty
              Sample.db 2 2 (mk_user 1 0) (mk_object "beta" "b" 2 3)
              eq_refl eq_refl eq_refl eq_refl) as [Hsame Hnone].
  exact (conj Hsame (Hnone (conj eq_refl eq_refl))).
Defined.

(** Scenario D at the level of the mediator: a super-admin at level 3 deletes
    any object, whoever owns it, as soon as the storage collaborator carries
    out the deletion. *)
Lemma super_admin_deletes_any_object
    (flt : Faults) (db : Db) (user_id object_id : Z)
    (u : user_row) (o : object_row) :
  loads_succeed flt → mutation_succeeds flt →
  users db !! user_id = Some u →
  objects db !! object_id = Some o →
  u_security_level u = 3 → u_is_super_admin u ≠ 0 →
  (request_object_deletion user_id object_id flt db).1 = Returned true ∧
  objects (request_object_deletion user_id object_id flt db).2 !! object_id
    = None.
Proof.
  intros [Hsu Hso] [Hexec Hcommit] Hu Ho Hlevel Hadmin.
  apply Z.eqb_neq in Hadmin.
  run_M. unfold check_delete_access, truthy.
  rewrite Hsu, Hso, Hu, Ho, Hlevel, Hadmin. simpl.
  rewrite Hexec, Hcommit. simpl.
  destruct (audit_insert_fault flt); simpl;
    (split; [ done | apply lookup_delete_eq ]).
Qed.

(** AUTOINCREMENT hands out a rowid that no row of the table carries. *)
Lemma max_rowid_ge (m : gmap Z object_row) (k : Z) (o : object_row) :
  m !! k = Some o → k ≤ max_rowid m.
Proof.
  unfold max_rowid. revert k o.
  apply (map_fold_weak_ind
           (λ acc (m : gmap Z object_row), ∀ k o, m !! k = Some o → k ≤ acc)).
  - intros k o Hk. by rewrite lookup_empty in Hk.
  - intros i x m' acc Hfresh IH k o Hk.
    destruct (decide (i = k)) as [-> | Hne].
    + lia.
    + rewrite lookup_insert_ne in Hk by done. specialize (IH k o Hk). lia.
Qed.

Lemma next_rowid_fresh (db : Db) : objects db !! next_rowid db = None.
Proof.
  destruct (objects db !! next_rowid db) as [o | ] eqn:Hk; [ | done ].
  apply max_rowid_ge in Hk. unfold next_rowid in Hk. lia.
Qed.

(** C5, as stated, fails: a granted creation returns True, not the new object
    id.  Two granted creations whose new rows get the ids 5 and 7 return the
    same value to the caller. *)
Lemma creation_returns_no_object_id :
  (request_object_creation 2 "n" "c" 1 no_faults Sample.db).1
    = Returned true ∧
  (request_object_creation 2 "n" "c" 1 no_faults Sample.db_empty).1
    = Returned true ∧
  objects (request_object_creation 2 "n" "c" 1 no_faults Sample.db).2 !! 5
    = Some (mk_object "n" "c" 1 2) ∧
  objects (request_object_creation 2 "n" "c" 1 no_faults Sample.db_empty).2 !! 7
    = Some (mk_object "n" "c" 1 2) ∧
  objects (request_object_creation 2 "n" "c" 1 no_faults Sample.db).2 !! 7
    = None.
Proof. split_and!; reflexivity. Qed.

(** C5, amended. For an existing subject and a level in the defined set, the
    creation is authorised exactly when the subject is a super-admin or the
    level is at most the subject's level.  A refused creation returns False
    and stores nothing; an authorised one whose insert succeeds stores the
    object, owned by the subject, under a fresh id and returns True, the new
    id going to the audit record; an authorised one whose insert raises
    returns False and stores nothing. *)
Theorem request_object_creation_rule
    (flt : Faults) (db : Db) (user_id level : Z) (name content : string)
    (u : user_row) :
  select_users_fault flt = None →
  users db !! user_id = Some u →
  0 ≤ level ≤ 3 →
  let permitted := u_is_super_admin u ≠ 0 ∨ level ≤ u_security_level u in
  let run := request_object_creation user_id name content level flt db in
  let new_id := next_rowid db in
  (¬ permitted → run.1 = Returned false ∧ objects (run.2) = objects db) ∧
  (permitted → mutation_succeeds flt →
     run.1 = Returned true ∧
     objects db !! new_id = None ∧
     objects (run.2)
       = <[new_id := mk_object name content level user_id]> (objects db) ∧
     (audit_insert_fault flt = None →
      appended db (run.2)
        (mk_audit "create_object" user_id (Some new_id)
           ("Object created with level: " +:+ pretty level) true))) ∧
  (permitted → ∀ e, mutation_raises flt e →
     run.1 = Returned false ∧ objects (run.2) = objects db).
Proof.
  intros Hsu Hu Hlevel. apply level_in_range in Hlevel.
  unfold mutation_succeeds, mutation_raises, appended.
  run_M. unfold validate_security_level, truthy.
  rewrite Hsu, Hu, Hlevel. simpl. split_and!.
  - intros Hno.
    destruct (Z.eqb_spec (u_is_super_admin u) 0) as [Hz | Hz];
      [ | exfalso; apply Hno; by left ].
    destruct (Z.leb_spec level (u_security_level u)) as [Hle | Hgt];
      [ exfalso; apply Hno; by right | ].
    simpl. by destruct (audit_insert_fault flt).
  - intros Hyes [Hexec Hcommit].
    assert (negb (u_is_super_admin u =? 0) || (level <=? u_security_level u)
            = true) as ->.
    { destruct Hyes as [Hz | Hle].
      - apply Z.eqb_neq in Hz. by rewrite Hz.
      - apply Z.leb_le in Hle. rewrite Hle. apply orb_true_r. }
    simpl. rewrite Hexec, Hcommit. simpl. split_and!.
    + by destruct (audit_insert_fault flt).
    + apply next_rowid_fresh.
    + by destruct (audit_insert_fault flt).
    + by intros ->.
  - intros Hyes e Hraise.
    assert (negb (u_is_super_admin u =? 0) || (level <=? u_security_level u)
            = true) as ->.
    { destruct Hyes as [Hz | Hle].
      - apply Z.eqb_neq in Hz. by rewrite Hz.
      - apply Z.leb_le in Hle. rewrite Hle. apply orb_true_r. }
    simpl.
    destruct Hraise as [Hexec | [Hexec Hcommit]];
      rewrite Hexec, ?Hcommit; simpl; by destruct (audit_insert_fault flt).
Qed.

Lemma request_object_creation_rule_witness :
  (request_object_creation 2 "n" "c" 1 no_faults Sample.db).1
    = Returned true ∧
  (request_object_creation 2 "n" "c" 2 no_faults Sample.db).1
    = Returned false ∧
  (request_object_creation 1 "n" "c" 3 Sample.commit_failure Sample.db).1
    = Returned false.
Proof.
  destruct (request_object_creation_rule no_faults Sample.db 2 1 "n" "c"
              (mk_user 1 0) eq_refl eq_refl ltac:(lia)) as (_ & Hgrant & _).
  destruct (request_object_creation_rule no_faults Sample.db 2 2 "n" "c"
              (mk_user 1 0) eq_refl eq_refl ltac:(lia)) as (Hrefuse & _).
  destruct (request_object_creation_rule Sample.commit_failure Sample.db
              1 3 "n" "c" (mk_user 3 1) eq_refl eq_refl ltac:(lia))
    as (_ & _ & Hraise).
  split_and!.
  - apply Hgrant; [ right; simpl; lia | by split ].
  - apply Hrefuse. simpl. lia.
  - apply (Hraise ltac:(left; simpl; lia) "database is locked"%string).
    right. by split.
Defined.

End Mediator.

(** * Properties of the listings *)

Section Listings.
Import Database AccessManager ObjectManager.

Lemma string_compare_le_trans (s1 s2 s3 : string) :
  String.compare s1 s2 ≠ Gt → String.compare s2 s3 ≠ Gt →
  String.compare s1 s3 ≠ Gt.
Proof.
  revert s2 s3.
  induction s1 as [ | a s1 IH]; intros [ | b s2] [ | c s3]; simpl; try done.
  unfold Ascii.compare.
  destruct (N.compare_spec (N_of_ascii a) (N_of_ascii b)),
    (N.compare_spec (N_of_ascii b) (N_of_ascii c)),
    (N.compare_spec (N_of_ascii a) (N_of_ascii c));
    try done; try lia; eauto.
Qed.

Lemma string_leb_compare (s1 s2 : string) :
  String.leb s1 s2 = true ↔ String.compare s1 s2 ≠ Gt.
Proof. unfold String.leb. by destruct (String.compare s1 s2). Qed.

Lemma string_leb_trans (s1 s2 s3 : string) :
  String.leb s1 s2 = true → String.leb s2 s3 = true → String.leb s1 s3 = true.
Proof. rewrite !string_leb_compare. apply string_compare_le_trans. Qed.

#[local] Instance level_desc_name_asc_total : Total Sql.level_desc_name_asc.
Proof.
  intros x y. unfold Sql.level_desc_name_asc.
  destruct (String.leb_total (Sql.row_name x) (Sql.row_name y));
    destruct (Z.lt_total (Sql.row_level x) (Sql.row_level y))
      as [ | [ | ]]; intuition congruence.
Qed.

#[local] Instance level_desc_name_asc_trans :
  Transitive Sql.level_desc_name_asc.
Proof.
  intros x y z. unfold Sql.level_desc_name_asc.
  intros [Hxy | [Hxy Nxy]] [Hyz | [Hyz Nyz]];
    [ left; lia | left; lia | left; lia | right ].
  split; [ congruence | by eapply string_leb_trans ].
Qed.

#[local] Instance name_asc_total : Total Sql.name_asc.
Proof. intros x y. apply String.leb_total. Qed.

#[local] Instance name_asc_trans : Transitive Sql.name_asc.
Proof. intros x y z. apply string_leb_trans. Qed.

(** What a [SELECT ... WHERE cond ORDER BY order] over [objects] returns:
    each row that satisfies the condition, once, in the requested order. *)
Lemma select_objects_where_rows
    (cond : Z * object_row → bool) (order : relation (Z * object_row))
    `{∀ x y, Decision (order x y)} `{!Total order} `{!Transitive order}
    (flt : Faults) (db : Db) :
  select_objects_fault flt = None →
  ∃ rows,
    Sql.select_objects_where cond order flt db = (Returned rows, db) ∧
    (∀ id o, (id, o) ∈ rows ↔ objects db !! id = Some o ∧ cond (id, o) = true) ∧
    NoDup (rows.*1) ∧
    StronglySorted order rows.
Proof.
  intros Hso.
  exists (merge_sort order
            (filter (λ r, cond r = true) (map_to_list (objects db)))).
  split_and!.
  - unfold Sql.select_objects_where, select_all_objects, mbind, M_bind, mret,
      M_ret. by rewrite Hso.
  - intros id o. rewrite merge_sort_Permutation, list_elem_of_filter,
      elem_of_map_to_list. tauto.
  - rewrite merge_sort_Permutation.
    eapply sublist_NoDup; [ apply (NoDup_fst_map_to_list (objects db)) | ].
    apply fmap_sublist, sublist_filter.
  - by apply StronglySorted_merge_sort.
Qed.

Lemma summary_ids (rows : list (Z * object_row)) :
  s_id <$> (summary_of <$> rows) = rows.*1.
Proof. induction rows as [ | r rows IH]; csimpl; by f_equal. Qed.

Lemma elem_of_summaries (rows : list (Z * object_row)) (s : object_summary) :
  s ∈ summary_of <$> rows ↔
  ∃ o, (s_id s, o) ∈ rows ∧ s = summary_of (s_id s, o).
Proof.
  rewrite list_elem_of_fmap. split.
  - intros ([id o] & -> & Hin). by exists o.
  - intros (o & Hin & ->). by exists (s_id s, o).
Qed.

Lemma elem_of_briefs (rows : list (Z * object_row)) (b : object_brief) :
  b ∈ brief_of <$> rows ↔
  ∃ o, (b_id b, o) ∈ rows ∧ b = brief_of (b_id b, o).
Proof.
  rewrite list_elem_of_fmap. split.
  - intros ([id o] & -> & Hin). by exists o.
  - intros (o & Hin & ->). by exists (b_id b, o).
Qed.

Lemma summaries_sorted (rows : list (Z * object_row)) :
  StronglySorted Sql.level_desc_name_asc rows →
  StronglySorted summary_order (summary_of <$> rows).
Proof. by apply StronglySorted_fmap. Qed.

Lemma briefs_sorted (rows : list (Z * object_row)) :
  StronglySorted Sql.name_asc rows →
  StronglySorted brief_order (brief_of <$> rows).
Proof. by apply StronglySorted_fmap. Qed.

(** C9. For an existing subject the listing holds exactly the objects whose
    level is at most the subject's level, each once, in descending level and,
    within a level, ascending name; for an unknown subject it is the empty
    list, not an error.  The loading queries answer. *)
Theorem get_accessible_objects_listing
    (flt : Faults) (db : Db) (user_id : Z) :
  loads_succeed flt →
  (∀ u, users db !! user_id = Some u →
     ∃ listing,
       (get_accessible_objects user_id flt db).1 = Returned listing ∧
       (∀ s, s ∈ listing ↔
             ∃ o, objects db !! s_id s = Some o ∧
                  o_security_level o ≤ u_security_level u ∧
                  s = summary_of (s_id s, o)) ∧
       NoDup (s_id <$> listing) ∧
       StronglySorted summary_order listing) ∧
  (users db !! user_id = None →
     (get_accessible_objects user_id flt db).1 = Returned []).
Proof.
  intros [Hsu Hso]. split.
  - intros u Hu.
    destruct (select_objects_where_rows
                (λ r, Sql.row_level r <=? u_security_level u)
                Sql.level_desc_name_asc flt db Hso)
      as (rows & Hrun & Hrows & Hnodup & Hsorted).
    exists (summary_of <$> rows). split_and!.
    + unfold get_accessible_objects, select_user, mbind, M_bind, mret, M_ret.
      rewrite Hsu, Hu. by rewrite Hrun.
    + intros s. rewrite elem_of_summaries.
      split; intros (o & Ho & Hs); exists o.
      * apply Hrows in Ho as [Ho Hle]. apply Z.leb_le in Hle. done.
      * destruct Hs as [Hle Hs]. split; [ | done ].
        apply Hrows. split; [ done | ]. by apply Z.leb_le.
    + by rewrite summary_ids.
    + by apply summaries_sorted.
  - intros Hu.
    unfold get_accessible_objects, select_user, mbind, M_bind, mret, M_ret.
    by rewrite Hsu, Hu.
Qed.

Lemma get_accessible_objects_listing_witness :
  (get_accessible_objects 77 no_faults Sample.db).1 = Returned [] ∧
  ∃ listing,
    (get_accessible_objects 2 no_faults Sample.db).1 = Returned listing ∧
    StronglySorted summary_order listing.
Proof.
  destruct (get_accessible_objects_listing no_faults Sample.db 77
              (conj eq_refl eq_refl)) as [_ Hunknown].
  destruct (get_accessible_objects_listing no_faults Sample.db 2
              (conj eq_refl eq_refl)) as [Hknown _].
  destruct (Hknown (mk_user 1 0) eq_refl) as (listing & Hrun & _ & _ & Hsorted).
  split; [ exact (Hunknown eq_refl) | ].
  exists listing. exact (conj Hrun Hsorted).
Defined.

(** C10. For a user id that is not in the [users] table the object directory
    works at level 0: the search returns the objects whose name matches the
    pattern and whose level is at most 0, that is (levels being defined ones)
    the matching Public objects, in listing order; the by-level view answers
    with the objects of the requested level when that level is at most 0 and
    with nothing above it, so Public objects come back only for level 0. *)
Theorem unknown_user_reads_at_public_level
    (flt : Faults) (db : Db) (user_id security_level : Z)
    (search_term : string) :
  loads_succeed flt →
  users db !! user_id = None →
  let pattern := ("%" +:+ search_term +:+ "%")%string in
  (_get_user_security_level user_id flt db).1 = Returned 0 ∧
  (∃ found,
     (search_objects user_id search_term flt db).1 = Returned found ∧
     (∀ s, s ∈ found ↔
           ∃ o, objects db !! s_id s = Some o ∧
                Sql.like (o_name o) pattern = true ∧
                o_security_level o ≤ 0 ∧
                s = summary_of (s_id s, o)) ∧
     (object_levels_defined db →
      ∀ s, s ∈ found ↔
           ∃ o, objects db !! s_id s = Some o ∧
                Sql.like (o_name o) pattern = true ∧
                o_security_level o = 0 ∧
                s = summary_of (s_id s, o)) ∧
     StronglySorted summary_order found) ∧
  (∃ listed,
     (get_objects_by_level user_id security_level flt db).1 = Returned listed ∧
     (∀ b, b ∈ listed ↔
           security_level ≤ 0 ∧
           ∃ o, objects db !! b_id b = Some o ∧
                o_security_level o = security_level ∧
                b = brief_of (b_id b, o)) ∧
     (0 < security_level → listed = []) ∧
     (object_levels_defined db → security_level ≠ 0 → listed = []) ∧
     StronglySorted brief_order listed).
Proof.
  intros [Hsu Hso] Hu pattern.
  assert (∀ d, _get_user_security_level user_id flt d
               = (Returned (match users d !! user_id with
                            | Some u => u_security_level u
                            | None => 0
                            end), d)) as Hlevel.
  { intros d.
    unfold _get_user_security_level, select_user, mbind, M_bind, mret, M_ret.
    by rewrite Hsu. }
  split_and!.
  - by rewrite Hlevel, Hu.
  - destruct (select_objects_where_rows
                (λ r, Sql.like (Sql.row_name r) pattern
                      && (Sql.row_level r <=? 0))
                Sql.level_desc_name_asc flt db Hso)
      as (rows & Hrun & Hrows & _ & Hsorted).
    assert (∀ s, s ∈ summary_of <$> rows ↔
                 ∃ o, objects db !! s_id s = Some o ∧
                      Sql.like (o_name o) pattern = true ∧
                      o_security_level o ≤ 0 ∧
                      s = summary_of (s_id s, o)) as Hfound.
    { intros s. rewrite elem_of_summaries.
      split; intros (o & Ho & Hs); exists o.
      - apply Hrows in Ho as [Ho Hcond].
        apply andb_true_iff in Hcond as [Hlike Hle]. apply Z.leb_le in Hle.
        done.
      - destruct Hs as (Hlike & Hle & Hs). split; [ | done ].
        apply Hrows. split; [ done | ].
        apply andb_true_iff. split; [ done | by apply Z.leb_le ]. }
    exists (summary_of <$> rows). split_and!.
    + unfold search_objects, mbind, M_bind, mret, M_ret.
      rewrite Hlevel, Hu. fold pattern.
      unfold mbind, M_bind in Hrun. by rewrite Hrun.
    + done.
    + intros Hdefined s. rewrite Hfound.
      split; intros (o & Ho & Hlike & Hle & Hs); exists o;
        (split_and!; [ done | done | | done ]).
      * specialize (Hdefined _ _ Ho). lia.
      * lia.
    + by apply summaries_sorted.
  - destruct (select_objects_where_rows
                (λ r, Sql.row_level r =? security_level)
                Sql.name_asc flt db Hso)
      as (rows & Hrun & Hrows & _ & Hsorted).
    assert (∀ b, b ∈ brief_of <$> rows ↔
                 ∃ o, objects db !! b_id b = Some o ∧
                      o_security_level o = security_level ∧
                      b = brief_of (b_id b, o)) as Hlisted.
    { intros b. rewrite elem_of_briefs.
      split; intros (o & Ho & Hb); exists o.
      - apply Hrows in Ho as [Ho Hcond]. apply Z.eqb_eq in Hcond. done.
      - destruct Hb as [Heq Hb]. split; [ | done ].
        apply Hrows. split; [ done | ]. by apply Z.eqb_eq. }
    assert (get_objects_by_level user_id security_level flt db
            = (Returned (if security_level >? 0 then []
                         else brief_of <$> rows), db)) as Hby.
    { unfold get_objects_by_level, mbind at 1, M_bind at 1.
      rewrite Hlevel, Hu. destruct (security_level >? 0); [ done | ].
      unfold mbind, M_bind, mret, M_ret. by rewrite Hrun. }
    rewrite Hby. simpl.
    destruct (Z.gtb_spec security_level 0) as [Hgt | Hle].
    + exists []. split_and!; try done.
      * intros b. split; [ by intros ?%elem_of_nil | lia ].
      * constructor.
    + exists (brief_of <$> rows). split_and!.
      * done.
      * intros b. rewrite Hlisted. tauto.
      * lia.
      * intros Hdefined Hne.
        destruct rows as [ | [id o] rows]; [ done | ].
        assert (objects db !! id = Some o ∧
                (o_security_level o =? security_level) = true) as [Ho Heq].
        { apply (Hrows id o). left. }
        apply Z.eqb_eq in Heq. specialize (Hdefined _ _ Ho). lia.
      * by apply briefs_sorted.
Qed.

Lemma unknown_user_reads_at_public_level_witness :
  (_get_user_security_level 77 no_faults Sample.db).1 = Returned 0 ∧
  (∃ found, (search_objects 77 "A" no_faults Sample.db).1 = Returned found) ∧
  (∃ listed,
     (get_objects_by_level 77 2 no_faults Sample.db).1 = Returned listed ∧
     listed = []).
Proof.
  destruct (unknown_user_reads_at_public_level no_faults Sample.db 77 2 "A"
              (conj eq_refl eq_refl) eq_refl)
    as (Hlevel & (found & Hfound & _) & (listed & Hlisted & _ & Hnone & _)).
  split_and!.
  - exact Hlevel.
  - exists found. exact Hfound.
  - exists listed. split; [ exact Hlisted | apply Hnone; lia ].
Defined.

(** For the unknown user 77 the search for "A" does return a row: the one
    Public object, whose name matches regardless of case. *)
Example search_objects_unknown_user :
  (search_objects 77 "A" no_faults Sample.db).1
    = Returned [mk_summary 1 "alpha" 0 2] ∧
  (get_accessible_objects 77 no_faults Sample.db).1 = Returned [] ∧
  (get_objects_by_level 77 0 no_faults Sample.db).1
    = Returned [mk_brief 1 "alpha" 2].
Proof. split_and!; reflexivity. Qed.

End Listings.

(** * End-to-end properties of the object operations *)

Section EndToEnd.
Import Config SecurityMonitor.

(** Unfolds an operation and everything it calls. *)
Ltac run_ops :=
  unfold ObjectManager.create_object, ObjectManager.read_object,
    ObjectManager.update_object, ObjectManager.delete_object,
    ObjectManager.list_user_objects, ObjectManager.get_object_info,
    ObjectManager.search_objects, ObjectManager.get_objects_by_level,
    ObjectManager._get_user_security_level,
    Auth.change_user_security_level, Auth.set_users,
    AccessManager.request_read_access, AccessManager.request_write_access,
    AccessManager.request_object_creation,
    AccessManager.request_object_deletion,
    AccessManager.get_accessible_objects,
    Sql.select_objects_where, Database.select_all_objects,
    Database.update_content, Database.delete_object, Database.insert_object,
    Database.execute_and_commit, Database.set_objects,
    Database.select_user, Database.select_object,
    Audit.log_event, try_except, mbind, M_bind, mret, M_ret in *;
  simpl in *.

(** Case analysis over every branch the unfolded operation can take. *)
Ltac all_paths := repeat (case_match; simplify_eq/=).

(** Every object of the sample database carries a defined level. *)
Lemma sample_object_levels_defined : object_levels_defined Sample.db.
Proof.
  intros id o Ho.
  assert (id = 1 ∨ id = 2 ∨ id = 3 ∨ id = 4) as Hid.
  { apply elem_of_list_to_map_2 in Ho.
    repeat (apply elem_of_cons in Ho as [[= -> _] | Ho]; [ lia | ]).
    by apply elem_of_nil in Ho. }
  destruct Hid as [-> | [-> | [-> | ->]]];
    vm_compute in Ho; injection Ho as <-; simpl; lia.
Qed.

Lemma check_read_access_true (a b : Z) :
  check_read_access a b = true ↔ 0 ≤ b ∧ b ≤ a ∧ a ≤ 3.
Proof.
  unfold check_read_access.
  destruct (level_in a) eqn:Ha, (level_in b) eqn:Hb; simpl.
  - apply level_in_range in Ha, Hb. rewrite Z.geb_le. lia.
  - split; [ done | ]. intros Hr.
    assert (level_in b = true) by (apply level_in_range; lia). congruence.
  - split; [ done | ]. intros Hr.
    assert (level_in a = true) by (apply level_in_range; lia). congruence.
  - split; [ done | ]. intros Hr.
    assert (level_in a = true) by (apply level_in_range; lia). congruence.
Qed.

Lemma check_write_access_true (a b : Z) :
  check_write_access a b = true ↔ 0 ≤ a ∧ a ≤ b ∧ b ≤ 3.
Proof.
  unfold check_write_access.
  destruct (level_in a) eqn:Ha, (level_in b) eqn:Hb; simpl.
  - apply level_in_range in Ha, Hb. rewrite Z.leb_le. lia.
  - split; [ done | ]. intros Hr.
    assert (level_in b = true) by (apply level_in_range; lia). congruence.
  - split; [ done | ]. intros Hr.
    assert (level_in a = true) by (apply level_in_range; lia). congruence.
  - split; [ done | ]. intros Hr.
    assert (level_in a = true) by (apply level_in_range; lia). congruence.
Qed.

Lemma check_delete_access_true (a b : Z) (is_owner : bool) (admin : Z) :
  check_delete_access a b is_owner (truthy admin) = true ↔
  (admin ≠ 0 ∧ a = 3) ∨ (is_owner = true ∧ a = b).
Proof.
  unfold check_delete_access, truthy.
  destruct (Z.eqb_spec admin 0), (Z.eqb_spec a 3), (Z.eqb_spec a b),
    is_owner; simpl; intuition congruence.
Qed.

(** X1. No read up, end to end: [read_object] hands out a name and content
    only when the subject may read the object, and then they are the stored
    ones; when the loads answer it does so for every readable object. *)
Theorem read_object_no_read_up
    (flt : Faults) (db : Db) (user_id object_id : Z) :
  (∀ name content,
     (ObjectManager.read_object user_id object_id flt db).1
       = Returned (ObjectManager.ReadGranted name content) →
     ∃ o, readable db user_id object_id o ∧
          name = o_name o ∧ content = o_content o) ∧
  (∀ o, loads_succeed flt → readable db user_id object_id o →
     (ObjectManager.read_object user_id object_id flt db).1
       = Returned (ObjectManager.ReadGranted (o_name o) (o_content o))).
Proof.
  unfold readable, loads_succeed. split.
  - intros name content. run_ops. all_paths; intros [= <- <-];
      match goal with H : check_read_access _ _ = true |- _ =>
        apply check_read_access_true in H end;
      (eexists; split; [ eexists; split_and!; try done; lia | done ]).
  - intros o [Hsu Hso] (u & Hu & Ho & Hlow & Hle & Hhigh).
    assert (check_read_access (u_security_level u) (o_security_level o) = true)
      as Hread by (apply check_read_access_true; lia).
    assert (can_view_object_existence (u_security_level u)
              (o_security_level o) = true) as Hview
      by (unfold can_view_object_existence; apply Z.geb_le; lia).
    run_ops. rewrite Hsu, Hso, Hu, Ho, Hview, Hread. simpl.
    by destruct (audit_insert_fault flt).
Qed.

Lemma read_object_no_read_up_witness :
  (ObjectManager.read_object 1 2 no_faults Sample.db).1
    = Returned (ObjectManager.ReadGranted "beta" "b") ∧
  ∃ o, readable Sample.db 1 2 o ∧ "beta"%string = o_name o ∧
       "b"%string = o_content o.
Proof.
  split.
  - apply (proj2 (read_object_no_read_up no_faults Sample.db 1 2)
             (mk_object "beta" "b" 2 3) (conj eq_refl eq_refl)).
    exists (mk_user 3 1). simpl.
    split_and!; [ reflexivity | reflexivity | lia.. ].
  - apply (proj1 (read_object_no_read_up no_faults Sample.db 1 2)).
    reflexivity.
Defined.

(** What each mediator operation may do to the tables. *)
Lemma alter_lookup_insert (f : object_row → object_row)
    (m : gmap Z object_row) (i : Z) (o : object_row) :
  m !! i = Some o → alter f i m = <[i := f o]> m.
Proof.
  intros Hi. apply map_eq. intros j. destruct (decide (i = j)) as [<- | Hne].
  - by rewrite lookup_alter_eq, lookup_insert_eq, Hi.
  - by rewrite lookup_alter_ne, lookup_insert_ne.
Qed.

Lemma request_read_access_frame flt db user_id object_id :
  let db' := (AccessManager.request_read_access user_id object_id flt db).2 in
  users db' = users db ∧ objects db' = objects db ∧
  objects_seq db' = objects_seq db ∧ log_extended db db'.
Proof.
  unfold log_extended, appended. run_ops.
  all_paths; split_and!; eauto.
Qed.

Lemma request_write_access_frame flt db user_id object_id new_content :
  let db' := (AccessManager.request_write_access
                user_id object_id new_content flt db).2 in
  users db' = users db ∧ objects_seq db' = objects_seq db ∧
  log_extended db db' ∧
  (objects db' = objects db ∨
   ∃ o, writable db user_id object_id o ∧
        objects db' = <[object_id := with_content new_content o]> (objects db)).
Proof.
  unfold log_extended, appended, writable. run_ops.
  all_paths; split_and!; eauto; right;
    match goal with H : check_write_access _ _ = true |- _ =>
      apply check_write_access_true in H end;
    (eexists; split;
     [ eexists; split_and!; try done; lia
     | by apply alter_lookup_insert ]).
Qed.

Lemma request_object_deletion_frame flt db user_id object_id :
  let db' := (AccessManager.request_object_deletion
                user_id object_id flt db).2 in
  users db' = users db ∧ objects_seq db' = objects_seq db ∧
  log_extended db db' ∧
  (objects db' = objects db ∨
   ∃ o, deletable db user_id object_id o ∧
        objects db' = delete object_id (objects db)).
Proof.
  unfold log_extended, appended, deletable. run_ops.
  all_paths; split_and!; eauto; right;
    match goal with H : check_delete_access _ _ _ _ = true |- _ =>
      apply check_delete_access_true in H;
      rewrite bool_decide_eq_true in H end;
    (eexists; split; [ eexists; split_and!; done | done ]).
Qed.

Lemma request_object_creation_frame flt db user_id name content level :
  let db' := (AccessManager.request_object_creation
                user_id name content level flt db).2 in
  let row := mk_object name content level user_id in
  users db' = users db ∧ log_extended db db' ∧
  ((objects db' = objects db ∧ objects_seq db' = objects_seq db) ∨
   (creatable db user_id row ∧
    objects db' = <[Database.next_rowid db := row]> (objects db) ∧
    objects_seq db' = Database.next_rowid db)).
Proof.
  unfold log_extended, appended, creatable. run_ops.
  unfold validate_security_level, truthy in *.
  all_paths; split_and!; eauto; right;
    match goal with H : negb (level_in _) = false |- _ =>
      rewrite negb_false_iff, level_in_range in H end;
    match goal with H : _ || _ = true |- _ =>
      rewrite orb_true_iff, negb_true_iff, Z.eqb_neq, Z.leb_le in H end;
    (split; [ eexists; split_and!; eauto; lia | done ]).
Qed.

(** X2. No write down, end to end: [update_object] changes the stored objects,
    or reports success, only when the subject may write the target, and then
    exactly the content of the target changes; when the storage collaborator
    works it does so for every writable object. *)
Theorem update_object_no_write_down
    (flt : Faults) (db : Db) (user_id object_id : Z) (new_content : string) :
  let run := ObjectManager.update_object user_id object_id new_content flt db in
  let written o :=
    objects (run.2) = <[object_id := with_content new_content o]> (objects db) in
  (objects (run.2) ≠ objects db ∨
   run.1 = Returned (true, "Object updated successfully"%string) →
     ∃ o, writable db user_id object_id o ∧ written o) ∧
  (∀ o, loads_succeed flt → mutation_succeeds flt →
        writable db user_id object_id o →
     run.1 = Returned (true, "Object updated successfully"%string) ∧
     written o).
Proof.
  unfold writable, loads_succeed, mutation_succeeds. split.
  - run_ops. all_paths; intros [Hne | Heq]; simplify_eq;
      match goal with H : check_write_access _ _ = true |- _ =>
        apply check_write_access_true in H end;
      (eexists; split;
       [ eexists; split_and!; try done; lia
       | by apply alter_lookup_insert ]).
  - intros o [Hsu Hso] [Hexec Hcommit] (u & Hu & Ho & Hlow & Hle & Hhigh).
    assert (check_write_access (u_security_level u) (o_security_level o)
            = true) as Hwrite by (apply check_write_access_true; lia).
    run_ops. rewrite Hsu, Hso, Hu, Ho, Hwrite. simpl.
    rewrite Hexec, Hcommit. simpl.
    destruct (audit_insert_fault flt); simpl;
      (split; [ done | by apply alter_lookup_insert ]).
Qed.

Lemma update_object_no_write_down_witness :
  (ObjectManager.update_object 2 2 "zz" no_faults Sample.db).1
    = Returned (true, "Object updated successfully"%string) ∧
  ∃ o, writable Sample.db 2 2 o.
Proof.
  destruct (proj2 (update_object_no_write_down no_faults Sample.db 2 2 "zz")
              (mk_object "beta" "b" 2 3)
              (conj eq_refl eq_refl) (conj eq_refl eq_refl)) as [Hok _].
  { exists (mk_user 1 0). simpl.
    split_and!; [ reflexivity | reflexivity | lia.. ]. }
  split; [ exact Hok | ].
  destruct (proj1 (update_object_no_write_down no_faults Sample.db 2 2 "zz")
              (or_intror Hok)) as (o & Ho & _).
  exists o. exact Ho.
Defined.

(** X3. Deletion, end to end: [delete_object] removes something, or reports
    success, only when the subject is a level-3 super-admin or the owner at
    the object's own level, and then exactly the target row disappears; when
    the storage collaborator works it does so for every such object. *)
Theorem delete_object_only_when_allowed
    (flt : Faults) (db : Db) (user_id object_id : Z) :
  let run := ObjectManager.delete_object user_id object_id flt db in
  (objects (run.2) ≠ objects db ∨
   run.1 = Returned (true, "Object deleted successfully"%string) →
     ∃ o, deletable db user_id object_id o ∧
          objects (run.2) = delete object_id (objects db)) ∧
  (∀ o, loads_succeed flt → mutation_succeeds flt →
        deletable db user_id object_id o →
     run.1 = Returned (true, "Object deleted successfully"%string) ∧
     objects (run.2) = delete object_id (objects db)).
Proof.
  unfold deletable, loads_succeed, mutation_succeeds. split.
  - run_ops. all_paths; intros [Hne | Heq]; simplify_eq;
      match goal with H : check_delete_access _ _ _ _ = true |- _ =>
        apply check_delete_access_true in H;
        rewrite bool_decide_eq_true in H end;
      (eexists; split; [ eexists; split_and!; done | done ]).
  - intros o [Hsu Hso] [Hexec Hcommit] (u & Hu & Ho & Hallowed).
    assert (check_delete_access (u_security_level u) (o_security_level o)
              (bool_decide (user_id = o_owner_id o))
              (truthy (u_is_super_admin u)) = true) as Hdelete.
    { apply check_delete_access_true. by rewrite bool_decide_eq_true. }
    run_ops. rewrite Hsu, Hso, Hu, Ho, Hdelete. simpl.
    rewrite Hexec, Hcommit. simpl.
    by destruct (audit_insert_fault flt).
Qed.

Lemma delete_object_only_when_allowed_witness :
  (ObjectManager.delete_object 1 2 no_faults Sample.db).1
    = Returned (true, "Object deleted successfully"%string) ∧
  ∃ o, deletable Sample.db 1 2 o.
Proof.
  destruct (proj2 (delete_object_only_when_allowed no_faults Sample.db 1 2)
              (mk_object "beta" "b" 2 3)
              (conj eq_refl eq_refl) (conj eq_refl eq_refl)) as [Hok _].
  { exists (mk_user 3 1). simpl.
    split_and!; [ reflexivity | reflexivity | left; split; lia ]. }
  split; [ exact Hok | ].
  destruct (proj1 (delete_object_only_when_allowed no_faults Sample.db 1 2)
              (or_intror Hok)) as (o & Ho & _).
  exists o. exact Ho.
Defined.

(** X4. Creation, end to end: with a level outside the defined set
    [create_object] answers "Invalid security level" without reading or
    writing anything, whatever the storage collaborator does; it stores
    something, or reports success, only when the creation is authorised, and
    then exactly one row is added, under an id no row had, owned by the
    subject. *)
Theorem create_object_only_when_allowed
    (flt : Faults) (db : Db) (user_id level : Z) (name content : string) :
  let run := ObjectManager.create_object user_id name content level flt db in
  let row := mk_object name content level user_id in
  (¬ (0 ≤ level ≤ 3) →
     run = (Returned (false, "Invalid security level"%string), db)) ∧
  (objects (run.2) ≠ objects db ∨
   run.1 = Returned (true, "Object created successfully"%string) →
     creatable db user_id row ∧
     objects db !! Database.next_rowid db = None ∧
     objects (run.2) = <[Database.next_rowid db := row]> (objects db)).
Proof.
  unfold creatable. split.
  - intros Hlevel. apply level_in_out_of_range in Hlevel.
    unfold ObjectManager.create_object, validate_security_level.
    by rewrite Hlevel.
  - run_ops. unfold validate_security_level, truthy in *.
    all_paths; intros [Hne | Heq]; simplify_eq;
      match goal with H : negb (level_in _) = false |- _ =>
        rewrite negb_false_iff, level_in_range in H end;
      match goal with H : _ || _ = true |- _ =>
        rewrite orb_true_iff, negb_true_iff, Z.eqb_neq, Z.leb_le in H end;
      (split_and!;
       [ eexists; split_and!; eauto; lia | apply next_rowid_fresh | done ]).
Qed.

Lemma create_object_only_when_allowed_witness :
  ObjectManager.create_object 2 "n" "c" 9 Sample.load_failure Sample.db
    = (Returned (false, "Invalid security level"%string), Sample.db) ∧
  creatable Sample.db 2 (mk_object "n" "c" 1 2).
Proof.
  split.
  - apply (proj1 (create_object_only_when_allowed Sample.load_failure
                    Sample.db 2 9 "n" "c")). lia.
  - apply (proj2 (create_object_only_when_allowed no_faults
                    Sample.db 2 1 "n" "c")). right. reflexivity.
Defined.

Lemma levels_defined_insert (db : Db) (m : gmap Z object_row)
    (i : Z) (row : object_row) :
  object_levels_defined db → 0 ≤ o_security_level row ≤ 3 →
  (∀ id o, (<[i := row]> (objects db)) !! id = Some o →
           0 ≤ o_security_level o ≤ 3).
Proof.
  intros Hdefined Hrow id o. rewrite lookup_insert_Some.
  intros [[_ <-] | [_ Hid]]; [ done | by eapply Hdefined ].
Qed.

(** X5. Under any behaviour of the storage collaborator, no mediator
    operation changes the [users] table, and none breaks the invariant that
    every stored object carries a defined level: a write keeps the level of
    the row it rewrites and a creation only stores validated levels. *)
Theorem mediator_keeps_levels
    (flt : Faults) (db : Db) (user_id object_id level : Z)
    (new_content name content : string) :
  let keeps (db' : Db) :=
    users db' = users db ∧
    (object_levels_defined db → object_levels_defined db') in
  keeps (AccessManager.request_read_access user_id object_id flt db).2 ∧
  keeps (AccessManager.request_write_access
           user_id object_id new_content flt db).2 ∧
  keeps (AccessManager.request_object_creation
           user_id name content level flt db).2 ∧
  keeps (AccessManager.request_object_deletion user_id object_id flt db).2 ∧
  keeps (AccessManager.get_accessible_objects user_id flt db).2.
Proof.
  cbv zeta. split; [ | split; [ | split; [ | split ] ] ].
  - destruct (request_read_access_frame flt db user_id object_id)
      as (Hu & Ho & _).
    split; [ done | ]. unfold object_levels_defined. by rewrite Ho.
  - destruct (request_write_access_frame flt db user_id object_id new_content)
      as (Hu & _ & _ & [Ho | (o & (u & _ & Hfound & Hlow & Hle & Hhigh) & Ho)]).
    + split; [ done | ]. unfold object_levels_defined. by rewrite Ho.
    + split; [ done | ]. intros Hdefined. unfold object_levels_defined.
      rewrite Ho. apply (levels_defined_insert db (objects db)); [ done | ].
      specialize (Hdefined _ _ Hfound). simpl. lia.
  - destruct (request_object_creation_frame flt db user_id name content level)
      as (Hu & _ & [[Ho _] | ((u & _ & Hlevel & _) & Ho & _)]).
    + split; [ done | ]. unfold object_levels_defined. by rewrite Ho.
    + split; [ done | ]. intros Hdefined. unfold object_levels_defined.
      rewrite Ho. by apply (levels_defined_insert db (objects db)).
  - destruct (request_object_deletion_frame flt db user_id object_id)
      as (Hu & _ & _ & [Ho | (o & _ & Ho)]).
    + split; [ done | ]. unfold object_levels_defined. by rewrite Ho.
    + split; [ done | ]. intros Hdefined id o'. rewrite Ho.
      rewrite lookup_delete_Some. intros [_ Hid]. by eapply Hdefined.
  - by rewrite get_accessible_objects_pure.
Qed.

Lemma mediator_keeps_levels_witness :
  object_levels_defined
    (AccessManager.request_object_creation 2 "n" "c" 1 no_faults Sample.db).2.
Proof.
  apply (mediator_keeps_levels no_faults Sample.db 2 2 1 "zz" "n" "c").
  apply sample_object_levels_defined.
Defined.

(** X6. The audit log is append-only under any behaviour of the storage
    collaborator: each request operation leaves every earlier record in
    place and adds at most one record, which names the requesting subject. *)
Theorem audit_log_is_append_only
    (flt : Faults) (db : Db) (user_id object_id level : Z)
    (new_content name content : string) :
  let grows (db' : Db) :=
    audit_logs db' = audit_logs db ∨
    ∃ r, audit_logs db' = audit_logs db ++ [r] ∧ a_user_id r = user_id in
  grows (AccessManager.request_read_access user_id object_id flt db).2 ∧
  grows (AccessManager.request_write_access
           user_id object_id new_content flt db).2 ∧
  grows (AccessManager.request_object_creation
           user_id name content level flt db).2 ∧
  grows (AccessManager.request_object_deletion user_id object_id flt db).2.
Proof.
  cbv zeta. run_ops. split_and!; all_paths; eauto.
Qed.

(** What [request_read_access] answers depends on the [users] and [objects]
    tables only, and so does the record it hands to the audit sink. *)
Lemma request_read_access_same_tables flt db1 db2 user_id object_id :
  users db1 = users db2 → objects db1 = objects db2 →
  (AccessManager.request_read_access user_id object_id flt db1).1
    = (AccessManager.request_read_access user_id object_id flt db2).1 ∧
  ∀ r, appended db1
         (AccessManager.request_read_access user_id object_id flt db1).2 r →
       appended db2
         (AccessManager.request_read_access user_id object_id flt db2).2 r.
Proof.
  destruct db1 as [users1 objects1 seq1 log1], db2 as [users2 objects2 seq2 log2].
  simpl. intros <- <-. unfold appended. run_ops.
  all_paths; (split; [ done | ]); intros r Hr;
    first [ by apply app_inv_head in Hr as [= <-]
          | apply (f_equal length) in Hr; rewrite length_app in Hr;
            simpl in Hr; lia ].
Qed.

(** X7. Reading is repeatable: under the same behaviour of the storage
    collaborator a second [request_read_access] returns what the first one
    returned, and when each call appends a record the two records are equal,
    so the log ends in the same record twice. *)
Theorem request_read_access_repeatable
    (flt : Faults) (db : Db) (user_id object_id : Z) :
  let first := AccessManager.request_read_access user_id object_id flt db in
  let second :=
    AccessManager.request_read_access user_id object_id flt (first.2) in
  second.1 = first.1 ∧
  (∀ r, appended db (first.2) r →
        audit_logs (second.2) = audit_logs db ++ [r; r]).
Proof.
  cbv zeta.
  destruct (request_read_access_frame flt db user_id object_id)
    as (Husers & Hobjects & _ & _).
  destruct (request_read_access_same_tables flt db
              (AccessManager.request_read_access user_id object_id flt db).2
              user_id object_id) as [Hsame Hrecord]; [ done | done | ].
  split; [ done | ].
  intros r Hr. specialize (Hrecord r Hr). unfold appended in *.
  rewrite Hrecord, Hr. by rewrite <- app_assoc.
Qed.

Lemma request_read_access_repeatable_witness :
  audit_logs
    (AccessManager.request_read_access 2 2 no_faults
       (AccessManager.request_read_access 2 2 no_faults Sample.db).2).2
  = audit_logs Sample.db ++
    [ mk_audit "read_access" 2 (Some 2)
        "Cannot view object existence - User level: 1, Object level: 2" false;
      mk_audit "read_access" 2 (Some 2)
        "Cannot view object existence - User level: 1, Object level: 2" false ].
Proof.
  apply (proj2 (request_read_access_repeatable no_faults Sample.db 2 2)).
  reflexivity.
Defined.

(** The text [get_access_description] gives for a read up. *)
Lemma read_denied_text (a b : Z) :
  a < b →
  get_access_description a b "read"
  = ("READ denied: " +:+ level_name a +:+ " cannot read " +:+ level_name b
     +:+ " (No Read Up)")%string.
Proof.
  intros Hlt. unfold get_access_description. simpl.
  destruct (Z.geb_spec a b); [ lia | done ].
Qed.

Lemma read_granted_text (a b : Z) :
  b ≤ a →
  get_access_description a b "read"
  = ("READ granted: " +:+ level_name a +:+ " can read " +:+ level_name b)%string.
Proof.
  intros Hle. unfold get_access_description. simpl.
  destruct (Z.geb_spec a b); [ done | lia ].
Qed.

(** X8. A read up is logged as a hidden object, not as a policy denial.  For
    a loaded subject and object, with the audit sink working: below the
    object's level the call returns None and logs "Cannot view object
    existence" with both levels; at or above it the logged text is the
    "READ granted" description and both the returned value and the success
    flag follow [check_read_access] (so a level outside the defined set gives
    a failure record that reads "READ granted").  The "READ denied ... (No
    Read Up)" description is never what the call logs. *)
Theorem read_up_is_logged_as_hidden
    (flt : Faults) (db : Db) (user_id object_id : Z)
    (u : user_row) (o : object_row) :
  loads_succeed flt →
  audit_insert_fault flt = None →
  users db !! user_id = Some u →
  objects db !! object_id = Some o →
  let user_level := u_security_level u in
  let object_level := o_security_level o in
  let run := AccessManager.request_read_access user_id object_id flt db in
  let audited details success :=
    appended db (run.2)
      (mk_audit "read_access" user_id (Some object_id) details success) in
  (user_level < object_level →
     run.1 = Returned None ∧
     audited ("Cannot view object existence - User level: "
              +:+ pretty user_level +:+ ", Object level: "
              +:+ pretty object_level)%string false) ∧
  (object_level ≤ user_level →
     run.1 = Returned (if check_read_access user_level object_level
                       then Some (o_name o, o_content o) else None) ∧
     audited ("READ granted: " +:+ level_name user_level +:+ " can read "
              +:+ level_name object_level)%string
             (check_read_access user_level object_level)) ∧
  (∀ r a b, appended db (run.2) r → a < b →
            a_details r ≠ get_access_description a b "read").
Proof.
  intros [Hsu Hso] Hau Hu Ho. cbv zeta.
  unfold appended.
  unfold AccessManager.request_read_access, Database.select_user,
    Database.select_object, Audit.log_event, mbind, M_bind, mret, M_ret.
  rewrite Hsu, Hso, Hu, Ho. cbv beta iota zeta.
  unfold can_view_object_existence.
  destruct (Z.geb_spec (u_security_level u) (o_security_level o)) as [Hge | Hlt];
    cbn [negb].
  - rewrite (read_granted_text _ _ Hge). split_and!; [ lia | | ].
    + intros _.
      destruct (check_read_access (u_security_level u) (o_security_level o));
        by rewrite Hau.
    + intros r a b Hr Hab. rewrite (read_denied_text a b Hab).
      destruct (check_read_access (u_security_level u) (o_security_level o));
        rewrite Hau in Hr; simpl in Hr;
        apply app_inv_head in Hr as [= <-]; simpl; discriminate.
  - rewrite Hau. simpl. split_and!; [ done | lia | ].
    intros r a b Hr Hab. rewrite (read_denied_text a b Hab).
    apply app_inv_head in Hr as [= <-]. simpl. discriminate.
Qed.

Lemma read_up_is_logged_as_hidden_witness :
  (AccessManager.request_read_access 2 2 no_faults Sample.db).1
    = Returned None ∧
  appended Sample.db
    (AccessManager.request_read_access 2 2 no_faults Sample.db).2
    (mk_audit "read_access" 2 (Some 2)
       "Cannot view object existence - User level: 1, Object level: 2" false).
Proof.
  apply (proj1 (read_up_is_logged_as_hidden no_faults Sample.db 2 2
                  (mk_user 1 0) (mk_object "beta" "b" 2 3)
                  (conj eq_refl eq_refl) eq_refl eq_refl eq_refl)).
  simpl. lia.
Defined.

(** The granted and refused runs of the mediator, when the storage
    collaborator works. *)
Lemma request_read_access_granted flt db user_id object_id u o :
  loads_succeed flt →
  users db !! user_id = Some u → objects db !! object_id = Some o →
  0 ≤ o_security_level o → o_security_level o ≤ u_security_level u →
  u_security_level u ≤ 3 →
  (AccessManager.request_read_access user_id object_id flt db).1
    = Returned (Some (o_name o, o_content o)).
Proof.
  intros [Hsu Hso] Hu Ho Hlow Hle Hhigh.
  assert (check_read_access (u_security_level u) (o_security_level o) = true)
    as Hread by (apply check_read_access_true; lia).
  assert (can_view_object_existence (u_security_level u)
            (o_security_level o) = true) as Hview
    by (unfold can_view_object_existence; apply Z.geb_le; lia).
  run_ops. rewrite Hsu, Hso, Hu, Ho, Hview, Hread. simpl.
  by destruct (audit_insert_fault flt).
Qed.

Lemma request_read_access_refused flt db user_id object_id :
  loads_succeed flt →
  (users db !! user_id = None ∨ objects db !! object_id = None ∨
   ∃ u o, users db !! user_id = Some u ∧ objects db !! object_id = Some o ∧
          u_security_level u < o_security_level o) →
  (AccessManager.request_read_access user_id object_id flt db).1
    = Returned None.
Proof.
  intros [Hsu Hso] Hwhy. run_ops. rewrite Hsu, Hso.
  destruct Hwhy as [Hu | [Ho | (u & o & Hu & Ho & Hlt)]].
  - rewrite Hu. simpl. by destruct (audit_insert_fault flt).
  - rewrite Ho. simpl.
    destruct (users db !! user_id); simpl; by destruct (audit_insert_fault flt).
  - rewrite Hu, Ho.
    assert (can_view_object_existence (u_security_level u)
              (o_security_level o) = false) as ->.
    { unfold can_view_object_existence.
      destruct (Z.geb_spec (u_security_level u) (o_security_level o));
        [ lia | done ]. }
    simpl. by destruct (audit_insert_fault flt).
Qed.

Lemma request_write_access_granted flt db user_id object_id new_content u o :
  loads_succeed flt → mutation_succeeds flt →
  users db !! user_id = Some u → objects db !! object_id = Some o →
  0 ≤ u_security_level u → u_security_level u ≤ o_security_level o →
  o_security_level o ≤ 3 →
  let run := AccessManager.request_write_access
               user_id object_id new_content flt db in
  run.1 = Returned true ∧ users (run.2) = users db ∧
  objects (run.2) = <[object_id := with_content new_content o]> (objects db).
Proof.
  intros [Hsu Hso] [Hexec Hcommit] Hu Ho Hlow Hle Hhigh.
  assert (check_write_access (u_security_level u) (o_security_level o) = true)
    as Hwrite by (apply check_write_access_true; lia).
  run_ops. rewrite Hsu, Hso, Hu, Ho, Hwrite. simpl.
  rewrite Hexec, Hcommit. simpl.
  destruct (audit_insert_fault flt); simpl;
    (split_and!; [ done | done | by apply alter_lookup_insert ]).
Qed.

Lemma request_object_creation_granted flt db user_id name content level u :
  loads_succeed flt → mutation_succeeds flt →
  users db !! user_id = Some u → 0 ≤ level ≤ 3 →
  u_is_super_admin u ≠ 0 ∨ level ≤ u_security_level u →
  let run := AccessManager.request_object_creation
               user_id name content level flt db in
  run.1 = Returned true ∧ users (run.2) = users db ∧
  objects (run.2)
    = <[Database.next_rowid db := mk_object name content level user_id]>
        (objects db).
Proof.
  intros [Hsu Hso] [Hexec Hcommit] Hu Hlevel Hrule.
  apply level_in_range in Hlevel.
  assert (truthy (u_is_super_admin u) || (level <=? u_security_level u)
          = true) as Hok.
  { unfold truthy.
    rewrite orb_true_iff, negb_true_iff, Z.eqb_neq, Z.leb_le. done. }
  run_ops. unfold validate_security_level. rewrite Hsu, Hu, Hlevel. simpl.
  rewrite Hok. simpl. rewrite Hexec, Hcommit. simpl.
  by destruct (audit_insert_fault flt).
Qed.

Lemma request_object_deletion_granted flt db user_id object_id u o :
  loads_succeed flt → mutation_succeeds flt →
  users db !! user_id = Some u → objects db !! object_id = Some o →
  (u_is_super_admin u ≠ 0 ∧ u_security_level u = 3) ∨
  (user_id = o_owner_id o ∧ u_security_level u = o_security_level o) →
  let run := AccessManager.request_object_deletion user_id object_id flt db in
  run.1 = Returned true ∧ users (run.2) = users db ∧
  objects (run.2) = delete object_id (objects db).
Proof.
  intros [Hsu Hso] [Hexec Hcommit] Hu Ho Hallowed.
  assert (check_delete_access (u_security_level u) (o_security_level o)
            (bool_decide (user_id = o_owner_id o))
            (truthy (u_is_super_admin u)) = true) as Hdelete.
  { apply check_delete_access_true. by rewrite bool_decide_eq_true. }
  run_ops. rewrite Hsu, Hso, Hu, Ho, Hdelete. simpl.
  rewrite Hexec, Hcommit. simpl.
  by destruct (audit_insert_fault flt).
Qed.

Lemma request_object_deletion_refused flt db user_id object_id u o :
  loads_succeed flt →
  users db !! user_id = Some u → objects db !! object_id = Some o →
  ¬ ((u_is_super_admin u ≠ 0 ∧ u_security_level u = 3) ∨
     (user_id = o_owner_id o ∧ u_security_level u = o_security_level o)) →
  let run := AccessManager.request_object_deletion user_id object_id flt db in
  run.1 = Returned false ∧ objects (run.2) = objects db.
Proof.
  intros [Hsu Hso] Hu Ho Hrefused.
  assert (check_delete_access (u_security_level u) (o_security_level o)
            (bool_decide (user_id = o_owner_id o))
            (truthy (u_is_super_admin u)) = false) as Hdelete.
  { apply not_true_is_false. rewrite check_delete_access_true.
    by rewrite bool_decide_eq_true. }
  run_ops. rewrite Hsu, Hso, Hu, Ho, Hdelete. simpl.
  by destruct (audit_insert_fault flt).
Qed.

(** X9. Create, then read.  A subject that creates an object at or below its
    own (defined) level reads back the name and content it stored.  A
    super-admin that creates an object above its own level does not: the
    creation succeeds and the read returns None. *)
Theorem creator_reads_back
    (flt : Faults) (db : Db) (user_id level : Z) (name content : string)
    (u : user_row) :
  loads_succeed flt → mutation_succeeds flt →
  users db !! user_id = Some u →
  0 ≤ level ≤ 3 →
  let created := AccessManager.request_object_creation
                   user_id name content level flt db in
  let read_back := AccessManager.request_read_access
                     user_id (Database.next_rowid db) flt (created.2) in
  (level ≤ u_security_level u → u_security_level u ≤ 3 →
     created.1 = Returned true ∧
     read_back.1 = Returned (Some (name, content))) ∧
  (u_is_super_admin u ≠ 0 → u_security_level u < level →
     created.1 = Returned true ∧ read_back.1 = Returned None).
Proof.
  intros Hloads Hmut Hu Hlevel. cbv zeta. split.
  - intros Hle Hhigh.
    destruct (request_object_creation_granted flt db user_id name content
                level u Hloads Hmut Hu Hlevel (or_intror Hle))
      as (Hret & Husers & Hobjects).
    split; [ done | ].
    apply (request_read_access_granted flt _ user_id _ u
             (mk_object name content level user_id)); simpl;
      [ done | by rewrite Husers | | lia.. ].
    rewrite Hobjects. apply lookup_insert_eq.
  - intros Hadmin Hlt.
    destruct (request_object_creation_granted flt db user_id name content
                level u Hloads Hmut Hu Hlevel (or_introl Hadmin))
      as (Hret & Husers & Hobjects).
    split; [ done | ].
    apply request_read_access_refused; [ done | ]. right. right.
    exists u, (mk_object name content level user_id).
    split_and!; [ by rewrite Husers | | done ].
    rewrite Hobjects. apply lookup_insert_eq.
Qed.

Lemma creator_reads_back_witness :
  (AccessManager.request_read_access 3 5 no_faults
     (AccessManager.request_object_creation 3 "n" "c" 2 no_faults
        Sample.db).2).1
    = Returned (Some ("n"%string, "c"%string)).
Proof.
  apply (proj1 (creator_reads_back no_faults Sample.db 3 2 "n" "c"
                  (mk_user 2 0) (conj eq_refl eq_refl) (conj eq_refl eq_refl)
                  eq_refl ltac:(lia))); simpl; lia.
Defined.

(** X10. Writing up is blind.  A subject strictly below the (defined) level
    of an object may overwrite its content, cannot read the result back, and
    every subject cleared for the object reads the new content under the old
    name. *)
Theorem write_up_is_blind
    (flt : Faults) (db : Db) (user_id object_id : Z) (new_content : string)
    (u : user_row) (o : object_row) :
  loads_succeed flt → mutation_succeeds flt →
  users db !! user_id = Some u →
  objects db !! object_id = Some o →
  0 ≤ u_security_level u →
  u_security_level u < o_security_level o →
  o_security_level o ≤ 3 →
  let written := AccessManager.request_write_access
                   user_id object_id new_content flt db in
  written.1 = Returned true ∧
  (AccessManager.request_read_access user_id object_id flt (written.2)).1
    = Returned None ∧
  (∀ reader_id reader,
     users db !! reader_id = Some reader →
     o_security_level o ≤ u_security_level reader →
     u_security_level reader ≤ 3 →
     (AccessManager.request_read_access reader_id object_id flt
        (written.2)).1
       = Returned (Some (o_name o, new_content))).
Proof.
  intros Hloads Hmut Hu Ho Hlow Hlt Hhigh. cbv zeta.
  destruct (request_write_access_granted flt db user_id object_id new_content
              u o Hloads Hmut Hu Ho Hlow ltac:(lia) Hhigh)
    as (Hret & Husers & Hobjects).
  assert (objects
            (AccessManager.request_write_access
               user_id object_id new_content flt db).2 !! object_id
          = Some (with_content new_content o)) as Hnew.
  { rewrite Hobjects. apply lookup_insert_eq. }
  split_and!.
  - done.
  - apply request_read_access_refused; [ done | ]. right. right.
    exists u, (with_content new_content o).
    split_and!; [ by rewrite Husers | done | done ].
  - intros reader_id reader Hreader Hle Hclear.
    apply (request_read_access_granted flt _ reader_id object_id reader
             (with_content new_content o)); simpl;
      [ done | by rewrite Husers | done | lia.. ].
Qed.

Lemma write_up_is_blind_witness :
  (AccessManager.request_read_access 2 2 no_faults
     (AccessManager.request_write_access 2 2 "zz" no_faults Sample.db).2).1
    = Returned None ∧
  (AccessManager.request_read_access 1 2 no_faults
     (AccessManager.request_write_access 2 2 "zz" no_faults Sample.db).2).1
    = Returned (Some ("beta"%string, "zz"%string)).
Proof.
  destruct (write_up_is_blind no_faults Sample.db 2 2 "zz"
              (mk_user 1 0) (mk_object "beta" "b" 2 3)
              (conj eq_refl eq_refl) (conj eq_refl eq_refl)
              eq_refl eq_refl ltac:(simpl; lia) ltac:(simpl; lia)
              ltac:(simpl; lia)) as (_ & Hblind & Hreaders).
  split; [ exact Hblind | ].
  apply (Hreaders 1 (mk_user 3 1) eq_refl); simpl; lia.
Defined.

#[local] Existing Instance level_desc_name_asc_total.
#[local] Existing Instance level_desc_name_asc_trans.
#[local] Existing Instance name_asc_total.
#[local] Existing Instance name_asc_trans.

(** The level the object directory works at for a user id. *)
Lemma get_user_security_level_run flt db user_id :
  select_users_fault flt = None →
  ObjectManager._get_user_security_level user_id flt db
  = (Returned (match users db !! user_id with
               | Some u => u_security_level u
               | None => 0
               end), db).
Proof. intros Hsu. run_ops. by rewrite Hsu. Qed.

(** The rows of the listing, for any user id. *)
Lemma get_accessible_objects_rows flt db user_id :
  loads_succeed flt →
  ∃ listing,
    (AccessManager.get_accessible_objects user_id flt db).1
      = Returned listing ∧
    ∀ s, s ∈ listing ↔
         ∃ u o, users db !! user_id = Some u ∧
                objects db !! s_id s = Some o ∧
                o_security_level o ≤ u_security_level u ∧
                s = summary_of (s_id s, o).
Proof.
  intros [Hsu Hso].
  destruct (users db !! user_id) as [u | ] eqn:Hu.
  - destruct (select_objects_where_rows
                (λ r, Sql.row_level r <=? u_security_level u)
                Sql.level_desc_name_asc flt db Hso)
      as (rows & Hrun & Hrows & _ & _).
    exists (summary_of <$> rows). split.
    + unfold AccessManager.get_accessible_objects, Database.select_user,
        mbind, M_bind, mret, M_ret.
      rewrite Hsu, Hu. by rewrite Hrun.
    + intros s. rewrite elem_of_summaries. split.
      * intros (o & Ho & Hs). apply Hrows in Ho as [Ho Hle].
        apply Z.leb_le in Hle. by exists u, o.
      * intros (u' & o & [= <-] & Ho & Hle & Hs). exists o.
        split; [ | done ]. apply Hrows. split; [ done | by apply Z.leb_le ].
  - exists []. split.
    + unfold AccessManager.get_accessible_objects, Database.select_user,
        mbind, M_bind, mret, M_ret.
      by rewrite Hsu, Hu.
    + intros s. split; [ by intros ?%elem_of_nil | ].
      by intros (u & o & [=] & _).
Qed.

(** X11. A deleted object is gone for everybody.  After a deletion that the
    policy allows and the storage collaborator carries out, the id no longer
    resolves, every subject's read of it returns None, and no subject's
    listing contains it. *)
Theorem deleted_object_is_gone
    (flt : Faults) (db : Db) (user_id object_id reader_id : Z)
    (o : object_row) :
  loads_succeed flt → mutation_succeeds flt →
  deletable db user_id object_id o →
  let deleted := AccessManager.request_object_deletion
                   user_id object_id flt db in
  deleted.1 = Returned true ∧
  objects (deleted.2) !! object_id = None ∧
  (AccessManager.request_read_access reader_id object_id flt (deleted.2)).1
    = Returned None ∧
  ∃ listing,
    (AccessManager.get_accessible_objects reader_id flt (deleted.2)).1
      = Returned listing ∧
    ∀ s, s ∈ listing → s_id s ≠ object_id.
Proof.
  intros Hloads Hmut (u & Hu & Ho & Hallowed). cbv zeta.
  destruct (request_object_deletion_granted flt db user_id object_id u o
              Hloads Hmut Hu Ho Hallowed) as (Hret & Husers & Hobjects).
  assert (objects
            (AccessManager.request_object_deletion user_id object_id flt db).2
            !! object_id = None) as Hgone.
  { rewrite Hobjects. apply lookup_delete_eq. }
  split_and!; [ done | done | | ].
  - apply request_read_access_refused; [ done | ]. right. by left.
  - destruct (get_accessible_objects_rows flt
                (AccessManager.request_object_deletion
                   user_id object_id flt db).2 reader_id Hloads)
      as (listing & Hrun & Hlisting).
    exists listing. split; [ done | ].
    intros s (reader & o' & _ & Hfound & _)%Hlisting Heq.
    rewrite Heq in Hfound. congruence.
Qed.

Lemma deleted_object_is_gone_witness :
  (AccessManager.request_read_access 3 2 no_faults
     (AccessManager.request_object_deletion 1 2 no_faults Sample.db).2).1
    = Returned None.
Proof.
  apply (deleted_object_is_gone no_faults Sample.db 1 2 3
           (mk_object "beta" "b" 2 3)
           (conj eq_refl eq_refl) (conj eq_refl eq_refl)).
  exists (mk_user 3 1). simpl.
  split_and!; [ reflexivity | reflexivity | left; split; lia ].
Defined.

Lemma level_listed (l : Z) :
  bool_decide (l ∈ [0; 1; 2; 3]) = true ↔ 0 ≤ l ≤ 3.
Proof.
  rewrite bool_decide_eq_true, !elem_of_cons, elem_of_nil. lia.
Qed.

Lemma alter_missing (f : user_row → user_row) (m : gmap Z user_row) (i : Z) :
  m !! i = None → alter f i m = m.
Proof.
  intros Hi. apply map_eq. intros j. destruct (decide (i = j)) as [<- | Hne].
  - by rewrite lookup_alter_eq, Hi.
  - by rewrite lookup_alter_ne.
Qed.

Lemma change_user_security_level_granted flt db target new_level :
  mutation_succeeds flt → 0 ≤ new_level ≤ 3 →
  Auth.change_user_security_level target new_level true flt db
  = (Returned true,
     Auth.set_users (alter (Auth.with_level new_level) target) db).
Proof.
  intros [Hexec Hcommit] Hlevel. apply level_listed in Hlevel.
  unfold Auth.change_user_security_level. rewrite Hlevel. simpl.
  unfold try_except, Database.execute_and_commit, mbind, M_bind, mret, M_ret.
  by rewrite Hexec, Hcommit.
Qed.

(** X12. [change_user_security_level] answers False and changes nothing when
    the requester is not a super-admin, when the level is not one of 0..3, or
    when the update raises.  Otherwise it answers True and sets the level of
    the target row, if there is one: for an id that is not in the table it
    still answers True and the database is as before.  It never touches the
    objects or the audit log, and it keeps every subject's level defined. *)
Theorem change_user_security_level_outcomes
    (flt : Faults) (db : Db) (target_user_id new_level : Z)
    (requester_is_super_admin : bool) :
  let run := Auth.change_user_security_level
               target_user_id new_level requester_is_super_admin flt db in
  (requester_is_super_admin = false ∨ ¬ (0 ≤ new_level ≤ 3) →
     run = (Returned false, db)) ∧
  (∀ e, mutation_raises flt e → run = (Returned false, db)) ∧
  (requester_is_super_admin = true → 0 ≤ new_level ≤ 3 →
   mutation_succeeds flt →
     run.1 = Returned true ∧
     users (run.2)
       = alter (Auth.with_level new_level) target_user_id (users db) ∧
     (users db !! target_user_id = None → run.2 = db)) ∧
  objects (run.2) = objects db ∧
  audit_logs (run.2) = audit_logs db ∧
  (user_levels_defined db → user_levels_defined (run.2)).
Proof.
  cbv zeta. split_and!.
  - intros [-> | Hlevel]; [ done | ].
    unfold Auth.change_user_security_level.
    destruct requester_is_super_admin; [ | done ]. simpl.
    destruct (bool_decide (new_level ∈ [0; 1; 2; 3])) eqn:Hin; [ | done ].
    apply level_listed in Hin. contradiction.
  - intros e Hraise. unfold Auth.change_user_security_level.
    destruct requester_is_super_admin; [ | done ]. simpl.
    destruct (bool_decide (new_level ∈ [0; 1; 2; 3])); [ | done ]. simpl.
    unfold try_except, Database.execute_and_commit, mbind, M_bind, mret, M_ret.
    destruct Hraise as [Hexec | [Hexec Hcommit]]; by rewrite Hexec, ?Hcommit.
  - intros -> Hlevel Hmut.
    rewrite (change_user_security_level_granted _ _ _ _ Hmut Hlevel).
    split_and!; [ done | done | ].
    intros Hmissing. unfold Auth.set_users. simpl.
    rewrite (alter_missing _ _ _ Hmissing). by destruct db.
  - run_ops. by all_paths.
  - run_ops. by all_paths.
  - intros Hdefined. run_ops. all_paths; try done.
    intros id u'. simpl. rewrite lookup_alter_Some.
    intros [(_ & u & Hu & ->) | [_ Hu]]; [ | by eapply Hdefined ].
    simpl.
    match goal with H : negb (bool_decide _) = false |- _ =>
      rewrite negb_false_iff, level_listed in H end.
    done.
Qed.

Lemma change_user_security_level_outcomes_witness :
  Auth.change_user_security_level 2 3 false no_faults Sample.db
    = (Returned false, Sample.db) ∧
  Auth.change_user_security_level 2 3 true Sample.commit_failure Sample.db
    = (Returned false, Sample.db) ∧
  (Auth.change_user_security_level 77 3 true no_faults Sample.db).1
    = Returned true ∧
  (Auth.change_user_security_level 77 3 true no_faults Sample.db).2
    = Sample.db.
Proof.
  destruct (change_user_security_level_outcomes no_faults Sample.db 2 3 false)
    as (Hrefused & _).
  destruct (change_user_security_level_outcomes Sample.commit_failure
              Sample.db 2 3 true) as (_ & Hraised & _).
  destruct (change_user_security_level_outcomes no_faults Sample.db 77 3 true)
    as (_ & _ & Hgranted & _).
  destruct (Hgranted eq_refl ltac:(lia) (conj eq_refl eq_refl))
    as (Htrue & _ & Hsame).
  split_and!.
  - apply Hrefused. by left.
  - apply (Hraised "database is locked"%string). right. by split.
  - exact Htrue.
  - exact (Hsame eq_refl).
Defined.

(** X13. The owner's right to delete follows the owner's current level.  An
    owner who is not a super-admin and stands at the object's level may
    delete it; once that owner's level has been changed to any other defined
    level, the same deletion is refused and the object stays. *)
Theorem owner_loses_delete_after_level_change
    (flt : Faults) (db : Db) (user_id object_id new_level : Z)
    (u : user_row) (o : object_row) :
  loads_succeed flt → mutation_succeeds flt →
  users db !! user_id = Some u →
  objects db !! object_id = Some o →
  o_owner_id o = user_id →
  u_security_level u = o_security_level o →
  u_is_super_admin u = 0 →
  0 ≤ new_level ≤ 3 →
  new_level ≠ u_security_level u →
  let changed :=
    Auth.change_user_security_level user_id new_level true flt db in
  let refused :=
    AccessManager.request_object_deletion user_id object_id flt (changed.2) in
  (AccessManager.request_object_deletion user_id object_id flt db).1
    = Returned true ∧
  changed.1 = Returned true ∧
  refused.1 = Returned false ∧
  objects (refused.2) !! object_id = Some o.
Proof.
  intros Hloads Hmut Hu Ho Howner Hsame Hadmin Hlevel Hne. cbv zeta.
  rewrite (change_user_security_level_granted _ _ _ _ Hmut Hlevel).
  cbn [fst snd].
  destruct (request_object_deletion_granted flt db user_id object_id u o
              Hloads Hmut Hu Ho) as (Hbefore & _).
  { right. by split. }
  destruct (request_object_deletion_refused flt
              (Auth.set_users (alter (Auth.with_level new_level) user_id) db)
              user_id object_id (Auth.with_level new_level u) o Hloads)
    as [Hafter Hobjects].
  { simpl. by rewrite lookup_alter_eq, Hu. }
  { done. }
  { simpl. intros [[Hadm _] | [_ Heq]]; [ done | congruence ]. }
  split_and!; [ done | done | done | ].
  by rewrite Hobjects.
Qed.

Lemma owner_loses_delete_after_level_change_witness :
  (AccessManager.request_object_deletion 3 2 no_faults Sample.db).1
    = Returned true ∧
  (AccessManager.request_object_deletion 3 2 no_faults
     (Auth.change_user_security_level 3 3 true no_faults Sample.db).2).1
    = Returned false.
Proof.
  destruct (owner_loses_delete_after_level_change no_faults Sample.db 3 2 3
              (mk_user 2 0) (mk_object "beta" "b" 2 3)
              (conj eq_refl eq_refl) (conj eq_refl eq_refl)
              eq_refl eq_refl eq_refl eq_refl eq_refl
              ltac:(lia) ltac:(simpl; lia)) as (Hbefore & _ & Hafter & _).
  exact (conj Hbefore Hafter).
Defined.

Lemma request_read_access_some flt db user_id object_id v :
  (AccessManager.request_read_access user_id object_id flt db).1
    = Returned (Some v) →
  ∃ o, readable db user_id object_id o ∧ v = (o_name o, o_content o).
Proof.
  unfold readable. run_ops. all_paths; intros [= <-];
    match goal with H : check_read_access _ _ = true |- _ =>
      apply check_read_access_true in H end;
    (eexists; split; [ eexists; split_and!; try done; lia | done ]).
Qed.

Lemma list_user_objects_run flt db user_id :
  (ObjectManager.list_user_objects user_id flt db).1
  = (AccessManager.get_accessible_objects user_id flt db).1.
Proof.
  unfold ObjectManager.list_user_objects, mbind, M_bind, mret, M_ret.
  destruct (AccessManager.get_accessible_objects user_id flt db)
    as [[listing | e] db']; simpl; [ | done ].
  f_equal. induction listing as [ | [] listing IH]; csimpl; by f_equal.
Qed.

(** X14. The listing and the read agree.  For a subject with a defined
    level, over objects with defined levels, an object id appears in
    [list_user_objects] exactly when [request_read_access] hands out that
    object: nothing is listed that cannot be read, and nothing readable is
    missing from the list. *)
Theorem listed_iff_readable
    (flt : Faults) (db : Db) (user_id : Z) (u : user_row) :
  loads_succeed flt →
  users db !! user_id = Some u →
  0 ≤ u_security_level u ≤ 3 →
  object_levels_defined db →
  ∃ listing,
    (ObjectManager.list_user_objects user_id flt db).1 = Returned listing ∧
    ∀ object_id,
      (∃ s, s ∈ listing ∧ s_id s = object_id) ↔
      (∃ v, (AccessManager.request_read_access user_id object_id flt db).1
              = Returned (Some v)).
Proof.
  intros Hloads Hu Hlevel Hdefined.
  destruct (get_accessible_objects_rows flt db user_id Hloads)
    as (listing & Hrun & Hlisting).
  exists listing. split; [ by rewrite list_user_objects_run | ].
  intros object_id. split.
  - intros (s & (u' & o & Hu' & Ho & Hle & _)%Hlisting & <-).
    assert (u' = u) as -> by congruence.
    exists (o_name o, o_content o).
    apply (request_read_access_granted flt db user_id (s_id s) u o);
      try done; [ by apply (Hdefined _ _ Ho) | lia ].
  - intros (v & (o & (u' & Hu' & Ho & Hlow & Hle & Hhigh) & _)
              %request_read_access_some).
    exists (summary_of (object_id, o)). split; [ | done ].
    apply Hlisting. by exists u', o.
Qed.

Lemma listed_iff_readable_witness :
  ∃ listing,
    (ObjectManager.list_user_objects 2 no_faults Sample.db).1
      = Returned listing.
Proof.
  destruct (listed_iff_readable no_faults Sample.db 2 (mk_user 1 0)
              (conj eq_refl eq_refl) eq_refl ltac:(simpl; lia)
              sample_object_levels_defined)
    as (listing & Hrun & _).
  exists listing. exact Hrun.
Defined.

End EndToEnd.

(** * Properties of the search *)

Section Search.
Import Sql.

#[local] Existing Instance level_desc_name_asc_total.
#[local] Existing Instance level_desc_name_asc_trans.
#[local] Existing Instance name_asc_total.
#[local] Existing Instance name_asc_trans.

(** A leading [%] either matches nothing or swallows one more character. *)
Lemma like_chars_percent (p s : list ascii) :
  like_chars ("%"%char :: p) s
  = like_chars p s ||
    match s with [] => false | _ :: s' => like_chars ("%"%char :: p) s' end.
Proof. by destruct s. Qed.

Lemma like_chars_skip (p pre s : list ascii) :
  like_chars p s = true → like_chars ("%"%char :: p) (pre ++ s) = true.
Proof.
  intros Hmatch. induction pre as [ | c pre IH]; cbn [app];
    rewrite like_chars_percent.
  - by rewrite Hmatch.
  - rewrite IH. apply orb_true_r.
Qed.

Lemma like_chars_trailing_percent (s : list ascii) :
  like_chars ["%"%char] s = true.
Proof.
  induction s as [ | c s IH]; [ done | ].
  rewrite like_chars_percent, IH. apply orb_true_r.
Qed.

Lemma like_chars_up_to_case (term mid post : list ascii) :
  fold_case <$> mid = fold_case <$> term →
  like_chars (term ++ ["%"%char]) (mid ++ post) = true.
Proof.
  revert mid. induction term as [ | c term IH]; intros [ | d mid] Hfold;
    simplify_eq/=.
  - apply like_chars_trailing_percent.
  - destruct (Ascii.eqb_spec c "%") as [-> | Hc].
    + change (like_chars ("%"%char :: (term ++ ["%"%char]))
                (d :: mid ++ post) = true).
      rewrite like_chars_percent, like_chars_percent.
      rewrite (IH mid) by done. simpl. apply orb_true_r.
    + rewrite H, Ascii.eqb_refl, orb_true_r. simpl. by apply IH.
Qed.

Lemma list_ascii_of_string_app (s t : string) :
  list_ascii_of_string (s +:+ t)
  = list_ascii_of_string s ++ list_ascii_of_string t.
Proof. induction s as [ | c s IH]; simpl; by f_equal. Qed.

(** [name LIKE '%term%'] holds as soon as the name contains the term, read
    up to the case of ASCII letters, whatever characters the term is made
    of. *)
Lemma like_contains (pre mid post term : string) :
  same_up_to_case mid term →
  like (pre +:+ mid +:+ post) ("%" +:+ term +:+ "%") = true.
Proof.
  intros Hsame. unfold like.
  rewrite !list_ascii_of_string_app. simpl.
  apply like_chars_skip. by apply like_chars_up_to_case.
Qed.

Lemma like_everything (name : string) : like name "%%" = true.
Proof.
  unfold like.
  change (list_ascii_of_string "%%") with ["%"%char; "%"%char].
  rewrite <- (app_nil_r (list_ascii_of_string name)).
  by apply like_chars_skip.
Qed.

(** The rows of a search, for any user id. *)
Lemma search_objects_rows flt db user_id search_term :
  loads_succeed flt →
  ∃ found,
    (ObjectManager.search_objects user_id search_term flt db).1
      = Returned found ∧
    ∀ s, s ∈ found ↔
         ∃ o, objects db !! s_id s = Some o ∧
              like (o_name o) ("%" +:+ search_term +:+ "%") = true ∧
              o_security_level o ≤ directory_level db user_id ∧
              s = summary_of (s_id s, o).
Proof.
  intros [Hsu Hso].
  destruct (select_objects_where_rows
              (λ r, like (row_name r) ("%" +:+ search_term +:+ "%")
                    && (row_level r <=? directory_level db user_id))
              level_desc_name_asc flt db Hso)
    as (rows & Hrun & Hrows & _ & _).
  exists (summary_of <$> rows). split.
  - unfold ObjectManager.search_objects, mbind at 1, M_bind at 1.
    rewrite (get_user_security_level_run _ _ _ Hsu).
    unfold mbind, M_bind, mret, M_ret. fold (directory_level db user_id).
    unfold mbind, M_bind in Hrun. by rewrite Hrun.
  - intros s. rewrite elem_of_summaries.
    split; intros (o & Ho & Hs); exists o.
    + apply Hrows in Ho as [Ho Hcond].
      apply andb_true_iff in Hcond as [Hlike Hle]. apply Z.leb_le in Hle.
      done.
    + destruct Hs as (Hlike & Hle & Hs). split; [ | done ].
      apply Hrows. split; [ done | ].
      apply andb_true_iff. split; [ done | by apply Z.leb_le ].
Qed.

(** X15. The search shows nothing the listing hides.  For an existing
    subject every row [search_objects] returns is a row of
    [get_accessible_objects], at or below the subject's level, whatever the
    search term; and the search for the empty term is the listing itself. *)
Theorem search_stays_within_listing
    (flt : Faults) (db : Db) (user_id : Z) (search_term : string)
    (u : user_row) :
  loads_succeed flt →
  users db !! user_id = Some u →
  ∃ found listing,
    (ObjectManager.search_objects user_id search_term flt db).1
      = Returned found ∧
    (AccessManager.get_accessible_objects user_id flt db).1
      = Returned listing ∧
    (∀ s, s ∈ found →
          s ∈ listing ∧ s_security_level s ≤ u_security_level u) ∧
    (ObjectManager.search_objects user_id "" flt db).1 = Returned listing.
Proof.
  intros Hloads Hu.
  destruct (search_objects_rows flt db user_id search_term Hloads)
    as (found & Hfound & Hrows).
  destruct (get_accessible_objects_rows flt db user_id Hloads)
    as (listing & Hlisting & Hlisted).
  exists found, listing. split_and!; [ done | done | | ].
  - intros s (o & Ho & _ & Hle & Hs)%Hrows.
    unfold directory_level in Hle. rewrite Hu in Hle. split.
    + apply Hlisted. by exists u, o.
    + by rewrite Hs.
  - rewrite <- Hlisting. destruct Hloads as [Hsu Hso].
    unfold ObjectManager.search_objects, AccessManager.get_accessible_objects,
      mbind at 1, M_bind at 1.
    rewrite (get_user_security_level_run _ _ _ Hsu), Hu.
    unfold select_objects_where, Database.select_all_objects,
      Database.select_user, mbind, M_bind, mret, M_ret.
    rewrite Hsu, Hu, Hso. simpl. do 3 f_equal.
    apply list_filter_iff. intros r.
    change ("%" +:+ "" +:+ "%")%string with "%%"%string.
    by rewrite like_everything.
Qed.

Lemma search_stays_within_listing_witness :
  (ObjectManager.search_objects 2 "" no_faults Sample.db).1
  = (AccessManager.get_accessible_objects 2 no_faults Sample.db).1.
Proof.
  destruct (search_stays_within_listing no_faults Sample.db 2 "a"
              (mk_user 1 0) (conj eq_refl eq_refl) eq_refl)
    as (found & listing & _ & Hlisting & _ & Hempty).
  exact (eq_trans Hempty (eq_sym Hlisting)).
Defined.

(** X16. The search finds every visible object whose name contains the term.
    If an object's level is at most the level the directory uses for the user
    id, and its name contains the search term up to the case of ASCII
    letters, then [search_objects] returns it; this holds for every term,
    including terms that contain the wildcard characters [%] and [_]. *)
Theorem search_finds_names_containing_term
    (flt : Faults) (db : Db) (user_id object_id : Z) (o : object_row)
    (search_term pre mid post : string) :
  loads_succeed flt →
  objects db !! object_id = Some o →
  o_security_level o ≤ directory_level db user_id →
  o_name o = (pre +:+ mid +:+ post)%string →
  same_up_to_case mid search_term →
  ∃ found,
    (ObjectManager.search_objects user_id search_term flt db).1
      = Returned found ∧
    summary_of (object_id, o) ∈ found.
Proof.
  intros Hloads Ho Hle Hname Hsame.
  destruct (search_objects_rows flt db user_id search_term Hloads)
    as (found & Hfound & Hrows).
  exists found. split; [ done | ].
  apply Hrows. exists o. simpl. split_and!; [ done | | done | done ].
  rewrite Hname. by apply like_contains.
Qed.

Lemma search_finds_names_containing_term_witness :
  ∃ found,
    (ObjectManager.search_objects 2 "AMM" no_faults Sample.db).1
      = Returned found ∧
    mk_summary 3 "Gamma" 1 2 ∈ found.
Proof.
  apply (search_finds_names_containing_term no_faults Sample.db 2 3
           (mk_object "Gamma" "c" 1 2) "AMM" "G" "amm" "a"
           (conj eq_refl eq_refl) eq_refl);
    [ apply Z.leb_le; reflexivity | reflexivity | reflexivity ].
Defined.

(** X17. The metadata lookup hides what the read hides, without auditing.
    [get_object_info] never changes the database (it writes no audit
    record); for an id that does not resolve it answers None even when the
    [users] table cannot be read; and when the loads answer it hands out the
    name, level and owner exactly for an object whose level is at most the
    level the directory uses for the user id, so a missing object and an
    object above that level both give None. *)
Theorem get_object_info_visibility
    (flt : Faults) (db : Db) (user_id object_id : Z) :
  let run := ObjectManager.get_object_info user_id object_id flt db in
  run.2 = db ∧
  (select_objects_fault flt = None → objects db !! object_id = None →
     run.1 = Returned None) ∧
  (loads_succeed flt →
   ∀ info, run.1 = Returned (Some info) ↔
           ∃ o, objects db !! object_id = Some o ∧
                o_security_level o ≤ directory_level db user_id ∧
                info = ObjectManager.mk_info
                         (o_name o) (o_security_level o) (o_owner_id o)).
Proof.
  cbv zeta. unfold ObjectManager.get_object_info, Database.select_object.
  split_and!.
  - unfold ObjectManager._get_user_security_level, Database.select_user,
      mbind, M_bind, mret, M_ret.
    by repeat (case_match; simplify_eq/=).
  - intros Hso Hmissing. unfold mbind, M_bind, mret, M_ret.
    by rewrite Hso, Hmissing.
  - intros [Hsu Hso] info. unfold mbind at 1, M_bind at 1. rewrite Hso.
    destruct (objects db !! object_id) as [o | ] eqn:Ho.
    + unfold mbind, M_bind.
      rewrite (get_user_security_level_run _ _ _ Hsu).
      fold (directory_level db user_id).
      unfold SecurityMonitor.can_view_object_existence.
      destruct (Z.geb_spec (directory_level db user_id) (o_security_level o))
        as [Hge | Hlt]; simpl.
      * split.
        -- intros [= <-]. by exists o.
        -- intros (o' & [= <-] & _ & ->). done.
      * split; [ done | ]. intros (o' & [= <-] & Hle & _). lia.
    + simpl. split; [ done | ]. by intros (o' & [=] & _).
Qed.

Lemma get_object_info_visibility_witness :
  (ObjectManager.get_object_info 2 9 Sample.load_failure Sample.db).1
    = Returned None ∧
  (ObjectManager.get_object_info 77 1 no_faults Sample.db).1
    = Returned (Some (ObjectManager.mk_info "alpha" 0 2)).
Proof.
  destruct (get_object_info_visibility Sample.load_failure Sample.db 2 9)
    as (_ & Hmissing & _).
  destruct (get_object_info_visibility no_faults Sample.db 77 1)
    as (_ & _ & Hvisible).
  split.
  - exact (Hmissing eq_refl eq_refl).
  - apply (Hvisible (conj eq_refl eq_refl)).
    exists (mk_object "alpha" "a" 0 2).
    split_and!; [ reflexivity | apply Z.leb_le; reflexivity | reflexivity ].
Defined.

(** X18. The by-level view is a slice of the listing.  For an existing
    subject [get_objects_by_level] returns, in ascending order of name, the
    id, name and owner of exactly the rows of [get_accessible_objects] that
    carry the requested level; above the subject's level that is nothing. *)
Theorem by_level_is_a_slice_of_the_listing
    (flt : Faults) (db : Db) (user_id security_level : Z) (u : user_row) :
  loads_succeed flt →
  users db !! user_id = Some u →
  ∃ listed listing,
    (ObjectManager.get_objects_by_level user_id security_level flt db).1
      = Returned listed ∧
    (AccessManager.get_accessible_objects user_id flt db).1
      = Returned listing ∧
    (∀ b, b ∈ listed ↔
          ∃ s, s ∈ listing ∧ s_security_level s = security_level ∧
               b = mk_brief (s_id s) (s_name s) (s_owner_id s)) ∧
    (u_security_level u < security_level → listed = []) ∧
    StronglySorted brief_order listed.
Proof.
  intros Hloads Hu.
  destruct (get_accessible_objects_rows flt db user_id Hloads)
    as (listing & Hlisting & Hlisted).
  destruct Hloads as [Hsu Hso].
  destruct (select_objects_where_rows
              (λ r, row_level r =? security_level) name_asc flt db Hso)
    as (rows & Hrun & Hrows & _ & Hsorted).
  assert (ObjectManager.get_objects_by_level user_id security_level flt db
          = (Returned (if security_level >? u_security_level u then []
                       else brief_of <$> rows), db)) as Hby.
  { unfold ObjectManager.get_objects_by_level, mbind at 1, M_bind at 1.
    rewrite (get_user_security_level_run _ _ _ Hsu), Hu.
    destruct (security_level >? u_security_level u); [ done | ].
    unfold mbind, M_bind, mret, M_ret. by rewrite Hrun. }
  rewrite Hby. cbn [fst].
  destruct (Z.gtb_spec security_level (u_security_level u)) as [Hgt | Hle].
  - exists [], listing. split_and!; [ done | done | | done | constructor ].
    intros b. split; [ by intros ?%elem_of_nil | ].
    intros (s & (u' & o & Hu' & Ho & Hlevel & ->)%Hlisted & Hs & _).
    simpl in Hs. assert (u' = u) as -> by congruence. lia.
  - exists (brief_of <$> rows), listing.
    split_and!; [ done | done | | lia | by apply briefs_sorted ].
    intros b. rewrite elem_of_briefs. split.
    + intros (o & [Ho Heq%Z.eqb_eq]%Hrows & ->).
      exists (summary_of (b_id b, o)). split_and!; [ | done | done ].
      apply Hlisted. exists u, o. unfold row_level in Heq. simpl in *.
      split_and!; [ done | done | lia | done ].
    + intros (s & (u' & o & Hu' & Ho & Hlevel & Hs)%Hlisted & Heq & ->).
      exists o. rewrite Hs in Heq |- *. simpl in *. split; [ | done ].
      apply Hrows. split; [ done | ]. by apply Z.eqb_eq.
Qed.

Lemma by_level_is_a_slice_of_the_listing_witness :
  ∃ listed,
    (ObjectManager.get_objects_by_level 2 2 no_faults Sample.db).1
      = Returned listed ∧ listed = [].
Proof.
  destruct (by_level_is_a_slice_of_the_listing no_faults Sample.db 2 2
              (mk_user 1 0) (conj eq_refl eq_refl) eq_refl)
    as (listed & listing & Hrun & _ & _ & Hnone & _).
  exists listed. split; [ exact Hrun | apply Hnone; simpl; lia ].
Defined.

End Search.

(** * What a subject can observe *)

Section Observations.
Import Config SecurityMonitor.

Lemma write_granted_text (a b : Z) :
  a ≤ b →
  get_access_description a b "write"
  = ("WRITE granted: " +:+ level_name a +:+ " can write to "
     +:+ level_name b)%string.
Proof.
  intros Hle. unfold get_access_description. simpl.
  destruct (Z.leb_spec a b); [ done | lia ].
Qed.

Lemma write_denied_text (a b : Z) :
  b < a →
  get_access_description a b "write"
  = ("WRITE denied: " +:+ level_name a +:+ " cannot write to "
     +:+ level_name b +:+ " (No Write Down)")%string.
Proof.
  intros Hlt. unfold get_access_description. simpl.
  destruct (Z.leb_spec a b); [ lia | done ].
Qed.

(** X21. The audit text agrees with the decision on the defined levels.  For
    levels in 0..3 the read text is the "READ granted" one exactly when
    [check_read_access] grants, the write text is the "WRITE granted" one
    exactly when [check_write_access] grants, and both levels are shown by
    name; a level outside the set is shown as "Unknown", and any action other
    than "read" and "write" gives "Unknown action". *)
Theorem description_agrees_with_decision (a b : Z) :
  (0 ≤ a ≤ 3 → 0 ≤ b ≤ 3 →
     (check_read_access a b = true ↔
      get_access_description a b "read"
      = ("READ granted: " +:+ level_name a +:+ " can read "
         +:+ level_name b)%string) ∧
     (check_write_access a b = true ↔
      get_access_description a b "write"
      = ("WRITE granted: " +:+ level_name a +:+ " can write to "
         +:+ level_name b)%string) ∧
     level_name a ≠ "Unknown"%string) ∧
  (¬ (0 ≤ a ≤ 3) → level_name a = "Unknown"%string) ∧
  (∀ action, action ≠ "read"%string → action ≠ "write"%string →
     get_access_description a b action = "Unknown action"%string).
Proof.
  split_and!.
  - intros Ha Hb. split_and!.
    + rewrite check_read_access_true. split.
      * intros (_ & Hle & _). by apply read_granted_text.
      * intros Htext. destruct (Z.le_gt_cases b a) as [Hle | Hlt]; [ lia | ].
        rewrite (read_denied_text a b Hlt) in Htext. simpl in Htext.
        discriminate.
    + rewrite check_write_access_true. split.
      * intros (_ & Hle & _). by apply write_granted_text.
      * intros Htext. destruct (Z.le_gt_cases a b) as [Hle | Hlt]; [ lia | ].
        rewrite (write_denied_text a b Hlt) in Htext. simpl in Htext.
        discriminate.
    + assert (a = 0 ∨ a = 1 ∨ a = 2 ∨ a = 3) as Hcases by lia.
      destruct Hcases as [-> | [-> | [-> | ->]]]; vm_compute; discriminate.
  - intros Ha. apply level_in_out_of_range in Ha.
    unfold level_in in Ha. apply bool_decide_eq_false in Ha.
    apply eq_None_not_Some in Ha. unfold level_name. by rewrite Ha.
  - intros action Hread Hwrite. unfold get_access_description.
    apply String.eqb_neq in Hread, Hwrite. by rewrite Hread, Hwrite.
Qed.

Lemma description_agrees_with_decision_witness :
  get_access_description 2 1 "read"
    = "READ granted: Secret can read Confidential"%string ∧
  get_access_description 7 1 "list" = "Unknown action"%string.
Proof.
  destruct (description_agrees_with_decision 2 1) as (Hdefined & _).
  destruct (Hdefined ltac:(lia) ltac:(lia)) as (Hread & _).
  destruct (description_agrees_with_decision 7 1) as (_ & _ & Hother).
  split.
  - apply Hread. reflexivity.
  - apply Hother; discriminate.
Defined.

Lemma agree_up_to_lookup (L : Z) (db1 db2 : Db) (id : Z) (o : object_row) :
  agree_up_to L db1 db2 → o_security_level o ≤ L →
  objects db1 !! id = Some o ↔ objects db2 !! id = Some o.
Proof. intros [_ Hlow] Hle. by apply Hlow. Qed.

(** What a read returns is decided by the subject's row and by the object
    row when it is at or below the subject's level. *)
Lemma request_read_access_value flt db user_id object_id u :
  loads_succeed flt → users db !! user_id = Some u →
  (AccessManager.request_read_access user_id object_id flt db).1
  = Returned
      (match objects db !! object_id with
       | Some o =>
           if (o_security_level o <=? u_security_level u)
              && check_read_access (u_security_level u) (o_security_level o)
           then Some (o_name o, o_content o) else None
       | None => None
       end).
Proof.
  intros [Hsu Hso] Hu.
  unfold AccessManager.request_read_access, Database.select_user,
    Database.select_object, Audit.log_event, mbind, M_bind, mret, M_ret.
  rewrite Hsu, Hso, Hu. cbv beta iota zeta.
  destruct (objects db !! object_id) as [o | ];
    [ | by destruct (audit_insert_fault flt) ].
  unfold can_view_object_existence. rewrite Z.geb_leb.
  destruct (o_security_level o <=? u_security_level u); cbn [negb andb];
    [ | by destruct (audit_insert_fault flt) ].
  destruct (check_read_access (u_security_level u) (o_security_level o));
    by destruct (audit_insert_fault flt).
Qed.

Lemma get_object_info_value flt db user_id object_id :
  loads_succeed flt →
  (ObjectManager.get_object_info user_id object_id flt db).1
  = Returned
      (match objects db !! object_id with
       | Some o =>
           if o_security_level o <=? directory_level db user_id
           then Some (ObjectManager.mk_info (o_name o) (o_security_level o)
                        (o_owner_id o))
           else None
       | None => None
       end).
Proof.
  intros [Hsu Hso].
  unfold ObjectManager.get_object_info, Database.select_object,
    mbind at 1, M_bind at 1.
  rewrite Hso. destruct (objects db !! object_id) as [o | ]; [ | done ].
  unfold mbind, M_bind. rewrite (get_user_security_level_run _ _ _ Hsu).
  fold (directory_level db user_id).
  unfold can_view_object_existence. rewrite Z.geb_leb.
  by destruct (o_security_level o <=? directory_level db user_id).
Qed.

(** A view of an object row that only looks at rows at or below [L] is the
    same in two databases that agree up to [L]. *)
Lemma agree_up_to_view {B} (L : Z) (db1 db2 : Db) (id : Z)
    (f : object_row → bool) (g : object_row → B) (d : B) :
  agree_up_to L db1 db2 →
  (∀ o, f o = true → o_security_level o ≤ L) →
  match objects db1 !! id with
  | Some o => if f o then g o else d
  | None => d
  end
  = match objects db2 !! id with
    | Some o => if f o then g o else d
    | None => d
    end.
Proof.
  intros Hagree Hf.
  assert (∀ o, f o = true →
               objects db1 !! id = Some o ↔ objects db2 !! id = Some o)
    as Hsame.
  { intros o Hfo. apply (agree_up_to_lookup L); [ done | by apply Hf ]. }
  destruct (objects db1 !! id) as [o1 | ] eqn:Ho1,
    (objects db2 !! id) as [o2 | ] eqn:Ho2; try done.
  - destruct (f o1) eqn:Hf1.
    + pose proof (proj1 (Hsame o1 Hf1) eq_refl) as [= ->]. by rewrite Hf1.
    + destruct (f o2) eqn:Hf2; [ | done ].
      pose proof (proj2 (Hsame o2 Hf2) eq_refl) as [= ->]. congruence.
  - destruct (f o1) eqn:Hf1; [ | done ].
    by pose proof (proj1 (Hsame o1 Hf1) eq_refl).
  - destruct (f o2) eqn:Hf2; [ | done ].
    by pose proof (proj2 (Hsame o2 Hf2) eq_refl).
Qed.

(** X22. A subject's observations do not depend on objects above its level.
    If two databases hold the same subjects and the same objects at or below
    the subject's level, then for that subject [request_read_access] returns
    the same value on every object id, [get_object_info] returns the same
    value on every object id, and [get_accessible_objects] lists the same
    rows, whatever the two databases hold above that level. *)
Theorem reads_ignore_higher_objects
    (flt : Faults) (db1 db2 : Db) (user_id object_id : Z) (u : user_row) :
  loads_succeed flt →
  users db1 !! user_id = Some u →
  agree_up_to (u_security_level u) db1 db2 →
  (AccessManager.request_read_access user_id object_id flt db1).1
    = (AccessManager.request_read_access user_id object_id flt db2).1 ∧
  (ObjectManager.get_object_info user_id object_id flt db1).1
    = (ObjectManager.get_object_info user_id object_id flt db2).1 ∧
  ∃ listing1 listing2,
    (AccessManager.get_accessible_objects user_id flt db1).1
      = Returned listing1 ∧
    (AccessManager.get_accessible_objects user_id flt db2).1
      = Returned listing2 ∧
    ∀ s, s ∈ listing1 ↔ s ∈ listing2.
Proof.
  intros Hloads Hu1 Hagree.
  assert (users db2 !! user_id = Some u) as Hu2
    by (destruct Hagree as [<- _]; done).
  split_and!.
  - rewrite (request_read_access_value flt db1 user_id object_id u Hloads Hu1).
    rewrite (request_read_access_value flt db2 user_id object_id u Hloads Hu2).
    f_equal. apply (agree_up_to_view (u_security_level u)); [ done | ].
    intros o [Hle _]%andb_true_iff. by apply Z.leb_le.
  - rewrite !get_object_info_value by done.
    unfold directory_level. rewrite Hu1, Hu2. f_equal.
    apply (agree_up_to_view (u_security_level u)); [ done | ].
    intros o Hle. by apply Z.leb_le.
  - destruct (get_accessible_objects_rows flt db1 user_id Hloads)
      as (listing1 & Hrun1 & Hrows1).
    destruct (get_accessible_objects_rows flt db2 user_id Hloads)
      as (listing2 & Hrun2 & Hrows2).
    exists listing1, listing2. split_and!; [ done | done | ].
    intros s. rewrite Hrows1, Hrows2.
    split; intros (u' & o & Hu' & Ho & Hle & Hs); exists u, o;
      (assert (u' = u) as -> by congruence);
      (split_and!; [ done | | done | done ]);
      by apply (agree_up_to_lookup (u_security_level u) db1 db2).
Qed.

Lemma reads_ignore_higher_objects_witness :
  (AccessManager.request_read_access 2 2 no_faults Sample.db).1
  = (AccessManager.request_read_access 2 2 no_faults
       (AccessManager.request_object_deletion 1 2 no_faults Sample.db).2).1.
Proof.
  apply (reads_ignore_higher_objects no_faults Sample.db
           (AccessManager.request_object_deletion 1 2 no_faults Sample.db).2
           2 2 (mk_user 1 0) (conj eq_refl eq_refl) eq_refl).
  split; [ reflexivity | ].
  intros id o Hle. simpl in Hle.
  change (objects
            (AccessManager.request_object_deletion
               1 2 no_faults Sample.db).2)
    with (delete 2 (objects Sample.db)).
  rewrite lookup_delete_Some. split; [ | by intros [_ ?] ].
  intros Ho. split; [ | done ]. intros <-.
  vm_compute in Ho. injection Ho as <-. simpl in Hle. lia.
Defined.

Lemma request_write_access_refused flt db user_id object_id new_content u o :
  loads_succeed flt →
  users db !! user_id = Some u → objects db !! object_id = Some o →
  o_security_level o < u_security_level u →
  let run := AccessManager.request_write_access
               user_id object_id new_content flt db in
  run.1 = Returned false ∧ objects (run.2) = objects db.
Proof.
  intros [Hsu Hso] Hu Ho Hlt.
  assert (check_write_access (u_security_level u) (o_security_level o)
          = false) as Hwrite.
  { apply not_true_is_false. rewrite check_write_access_true. lia. }
  unfold AccessManager.request_write_access, Database.select_user,
    Database.select_object, Audit.log_event, mbind, M_bind, mret, M_ret.
  rewrite Hsu, Hso, Hu, Ho. cbv beta iota zeta. rewrite Hwrite.
  by destruct (audit_insert_fault flt).
Qed.

(** X23. Content cannot be written down, but it can be created down.  A
    subject strictly above the level of an existing object is refused the
    write and the object stays as it was; the same subject is granted the
    creation of a new object at that lower level, and every subject cleared
    for that level then reads the content the higher subject supplied. *)
Theorem creation_passes_content_down
    (flt : Faults) (db : Db) (user_id object_id reader_id : Z)
    (name content : string) (u reader : user_row) (o : object_row) :
  loads_succeed flt → mutation_succeeds flt →
  users db !! user_id = Some u →
  users db !! reader_id = Some reader →
  objects db !! object_id = Some o →
  0 ≤ o_security_level o →
  o_security_level o < u_security_level u →
  o_security_level o ≤ u_security_level reader →
  u_security_level reader ≤ 3 →
  let level := o_security_level o in
  let refused := AccessManager.request_write_access
                   user_id object_id content flt db in
  let created := AccessManager.request_object_creation
                   user_id name content level flt db in
  refused.1 = Returned false ∧
  objects (refused.2) = objects db ∧
  created.1 = Returned true ∧
  (AccessManager.request_read_access reader_id (Database.next_rowid db) flt
     (created.2)).1
    = Returned (Some (name, content)).
Proof.
  intros Hloads Hmut Hu Hreader Ho Hlow Hlt Hle Hhigh. cbv zeta.
  destruct (request_write_access_refused flt db user_id object_id content u o
              Hloads Hu Ho Hlt) as [Hrefused Hsame].
  destruct (request_object_creation_granted flt db user_id name content
              (o_security_level o) u Hloads Hmut Hu ltac:(lia)
              ltac:(right; lia)) as (Hret & Husers & Hobjects).
  split_and!; [ done | done | done | ].
  apply (request_read_access_granted flt _ reader_id _ reader
           (mk_object name content (o_security_level o) user_id)); simpl;
    [ done | by rewrite Husers | | lia.. ].
  rewrite Hobjects. apply lookup_insert_eq.
Qed.

Lemma creation_passes_content_down_witness :
  (AccessManager.request_write_access 3 3 "s" no_faults Sample.db).1
    = Returned false ∧
  (AccessManager.request_read_access 2 5 no_faults
     (AccessManager.request_object_creation 3 "n" "s" 1 no_faults
        Sample.db).2).1
    = Returned (Some ("n"%string, "s"%string)).
Proof.
  destruct (creation_passes_content_down no_faults Sample.db 3 3 2 "n" "s"
              (mk_user 2 0) (mk_user 1 0) (mk_object "Gamma" "c" 1 2)
              (conj eq_refl eq_refl) (conj eq_refl eq_refl)
              eq_refl eq_refl eq_refl
              ltac:(simpl; lia) ltac:(simpl; lia) ltac:(simpl; lia)
              ltac:(simpl; lia)) as (Hrefused & _ & _ & Hread).
  exact (conj Hrefused Hread).
Defined.

End Observations.

(** * Properties of the audit statistics *)

Section AuditReports.
Import Audit.

Lemma count_success_split (logs : list audit_row) :
  length logs = (count_success true logs + count_success false logs)%nat.
Proof.
  unfold count_success. induction logs as [ | r logs IH]; [ done | ].
  destruct (a_success r) eqn:Hflag.
  - rewrite (filter_cons_True (λ r, a_success r = true)) by done.
    rewrite (filter_cons_False (λ r, a_success r = false)) by congruence.
    simpl. lia.
  - rewrite (filter_cons_False (λ r, a_success r = true)) by congruence.
    rewrite (filter_cons_True (λ r, a_success r = false)) by done.
    simpl. lia.
Qed.

Lemma count_success_snoc (flag : bool) (logs : list audit_row) (r : audit_row) :
  count_success flag (logs ++ [r])
  = (count_success flag logs
     + if bool_decide (a_success r = flag) then 1 else 0)%nat.
Proof.
  unfold count_success. rewrite filter_app, length_app. f_equal.
  rewrite filter_cons, filter_nil. by repeat case_decide; case_bool_decide.
Qed.

Lemma sum_list_with_plus {A} (f g : A → nat) (l : list A) :
  sum_list_with (λ x, f x + g x)%nat l
  = (sum_list_with f l + sum_list_with g l)%nat.
Proof. induction l as [ | x l IH]; simpl; lia. Qed.

Lemma sum_list_with_indicator (x : string) (ts : list string) :
  NoDup ts →
  sum_list_with (λ t, if decide (x = t) then 1 else 0)%nat ts
  = if decide (x ∈ ts) then 1%nat else 0%nat.
Proof.
  induction 1 as [ | t ts Hfresh Hnodup IH]; [ done | ]. simpl. rewrite IH.
  destruct (decide (x = t)) as [<- | Hne].
  - rewrite (decide_True (P := x ∈ x :: ts)) by left.
    by rewrite (decide_False (P := x ∈ ts)).
  - destruct (decide (x ∈ ts)) as [Hin | Hout].
    + by rewrite (decide_True (P := x ∈ t :: ts)) by (by right).
    + rewrite (decide_False (P := x ∈ t :: ts)); [ done | ].
      by intros [? | ?]%elem_of_cons.
Qed.

Lemma sum_list_with_pointwise {A} (f g : A → nat) (l : list A) :
  (∀ x, f x = g x) → sum_list_with f l = sum_list_with g l.
Proof. intros Hfg. induction l as [ | x l IH]; simpl; by rewrite ?Hfg, ?IH. Qed.

Lemma count_type_cons (t : string) (r : audit_row) (logs : list audit_row) :
  count_type t (r :: logs)
  = ((if decide (a_event_type r = t) then 1 else 0) + count_type t logs)%nat.
Proof. unfold count_type. rewrite filter_cons. by case_decide. Qed.

(** The groups partition the log. *)
Lemma count_type_total (logs : list audit_row) (ts : list string) :
  NoDup ts → (∀ r, r ∈ logs → a_event_type r ∈ ts) →
  sum_list_with (λ t, count_type t logs) ts = length logs.
Proof.
  intros Hnodup. induction logs as [ | r logs IH]; intros Hcover.
  - clear. induction ts as [ | t ts IHts]; [ done | ]. simpl. by rewrite IHts.
  - rewrite (sum_list_with_pointwise _
               (λ t, (if decide (a_event_type r = t) then 1 else 0)
                     + count_type t logs)%nat)
      by (intros t; apply count_type_cons).
    rewrite sum_list_with_plus, sum_list_with_indicator by done.
    rewrite IH by (intros r' Hr'; apply Hcover; by right).
    rewrite decide_True by (apply Hcover; by left). done.
Qed.

Lemma fst_tagged {A B} (f : A → B) (l : list A) :
  ((λ t, (t, f t)) <$> l).*1 = l.
Proof. induction l as [ | x l IH]; csimpl; by f_equal. Qed.

Lemma sum_snd_tagged {A} (f : A → nat) (l : list A) :
  sum_list_with snd ((λ t, (t, f t)) <$> l) = sum_list_with f l.
Proof. induction l as [ | x l IH]; csimpl; by f_equal. Qed.

#[local] Instance count_desc_total : Total count_desc.
Proof. intros x y. unfold count_desc. lia. Qed.

#[local] Instance count_desc_trans : Transitive count_desc.
Proof. intros x y z. unfold count_desc. lia. Qed.

(** X19. The audit statistics add up.  When its queries answer,
    [get_audit_statistics] leaves the database alone and returns totals in
    which every event is either a success or a failure, and a per-type table
    that names each event type of the log exactly once, with the number of
    its events (never zero), largest count first; the counts of the table sum
    to the total. *)
Theorem audit_statistics_add_up (flt : Faults) (db : Db) :
  ∃ st,
    get_audit_statistics None flt db = (Returned st, db) ∧
    total_events st = length (audit_logs db) ∧
    total_events st = (success_events st + failed_events st)%nat ∧
    sum_list_with snd (events_by_type st) = total_events st ∧
    NoDup ((events_by_type st).*1) ∧
    (∀ t n, (t, n) ∈ events_by_type st ↔
            n = count_type t (audit_logs db) ∧ (0 < n)%nat) ∧
    StronglySorted count_desc (events_by_type st).
Proof.
  eexists. split; [ reflexivity | ]. cbn [total_events success_events
    failed_events events_by_type]. unfold group_by_type.
  set (logs := audit_logs db).
  set (types := remove_dups (a_event_type <$> logs)).
  assert (∀ t, t ∈ types ↔ (0 < count_type t logs)%nat) as Htypes.
  { intros t. unfold types, count_type.
    rewrite elem_of_remove_dups, list_elem_of_fmap. split.
    - intros (r & -> & Hr).
      assert (r ∈ filter (λ r', a_event_type r' = a_event_type r) logs) as Hin
        by (by apply list_elem_of_filter).
      destruct (filter _ logs); [ by apply elem_of_nil in Hin | simpl; lia ].
    - intros Hpos.
      destruct (filter (λ r, a_event_type r = t) logs) as [ | r rest] eqn:Hf;
        [ simpl in Hpos; lia | ].
      assert (r ∈ filter (λ r, a_event_type r = t) logs) as Hin
        by (rewrite Hf; left).
      apply list_elem_of_filter in Hin as [<- Hin]. by exists r. }
  split_and!.
  - done.
  - apply count_success_split.
  - rewrite merge_sort_Permutation, sum_snd_tagged.
    apply count_type_total; [ apply NoDup_remove_dups | ].
    intros r Hr. apply elem_of_remove_dups, list_elem_of_fmap. by exists r.
  - rewrite merge_sort_Permutation, fst_tagged. apply NoDup_remove_dups.
  - intros t n. rewrite merge_sort_Permutation, list_elem_of_fmap. split.
    + intros (t' & [= -> ->] & Hin). split; [ done | by apply Htypes ].
    + intros [-> Hpos]. exists t. split; [ done | by apply Htypes ].
  - apply StronglySorted_merge_sort;
      [ apply count_desc_trans | apply count_desc_total ].
Qed.

Lemma audit_statistics_add_up_witness :
  ∃ st,
    get_audit_statistics None no_faults
      (AccessManager.request_read_access 2 2 no_faults Sample.db).2
    = (Returned st,
       (AccessManager.request_read_access 2 2 no_faults Sample.db).2) ∧
    total_events st = 1%nat.
Proof.
  destruct (audit_statistics_add_up no_faults
              (AccessManager.request_read_access 2 2 no_faults Sample.db).2)
    as (st & Hrun & Htotal & _).
  exists st. exact (conj Hrun Htotal).
Defined.

Lemma statistics_after_append (flt : Faults) (db db' : Db) (r : audit_row)
    (before after : audit_statistics) :
  appended db db' r →
  (get_audit_statistics None flt db).1 = Returned before →
  (get_audit_statistics None flt db').1 = Returned after →
  total_events after = S (total_events before) ∧
  success_events after
    = (success_events before + if a_success r then 1 else 0)%nat ∧
  failed_events after
    = (failed_events before + if a_success r then 0 else 1)%nat.
Proof.
  unfold appended. intros Hr [= <-] [= <-]. simpl.
  rewrite Hr, length_app, !count_success_snoc. simpl.
  destruct (a_success r); simpl; split_and!; lia.
Qed.

Lemma counted_once_of_audited {A} (ok : A → bool) user_id flt db run
    before after :
  audit_insert_fault flt = None →
  audited_once ok user_id flt db run →
  (get_audit_statistics None flt db).1 = Returned before →
  (get_audit_statistics None flt (run.2)).1 = Returned after →
  counted_once ok before after run.
Proof.
  intros Hau (v & Hv & Hlog) Hbefore Hafter. rewrite Hau in Hlog.
  destruct Hlog as (r & Hr & Hs & _).
  destruct (statistics_after_append flt db (run.2) r before after
              Hr Hbefore Hafter) as (Htotal & Hsuccess & Hfailed).
  exists v. rewrite Hs in Hsuccess, Hfailed. done.
Qed.

(** X20. The statistics follow the decisions.  When the loads answer and
    the audit sink accepts the record, the statistics read after any of the
    four request operations count one more event than those read before it:
    one more success when the request was granted, one more failure
    otherwise, on every path. *)
Theorem statistics_follow_requests
    (flt : Faults) (db : Db) (user_id object_id level : Z)
    (new_content name content : string) (before : audit_statistics) :
  loads_succeed flt →
  audit_insert_fault flt = None →
  (get_audit_statistics None flt db).1 = Returned before →
  counts_once granted_read flt before
    (AccessManager.request_read_access user_id object_id flt db) ∧
  counts_once id flt before
    (AccessManager.request_write_access user_id object_id new_content flt db) ∧
  counts_once id flt before
    (AccessManager.request_object_creation user_id name content level flt db) ∧
  counts_once id flt before
    (AccessManager.request_object_deletion user_id object_id flt db).
Proof.
  intros Hloads Hau Hbefore. unfold counts_once.
  split; [ | split; [ | split ] ]; (eexists; split; [ reflexivity | ]).
  - apply (counted_once_of_audited granted_read user_id flt db _ before _ Hau);
      [ by apply request_read_access_audited | done | done ].
  - apply (counted_once_of_audited id user_id flt db _ before _ Hau);
      [ by apply request_write_access_audited | done | done ].
  - apply (counted_once_of_audited id user_id flt db _ before _ Hau);
      [ by apply request_object_creation_audited | done | done ].
  - apply (counted_once_of_audited id user_id flt db _ before _ Hau);
      [ by apply request_object_deletion_audited | done | done ].
Qed.

Lemma statistics_follow_requests_witness :
  counts_once granted_read no_faults (mk_statistics 0 0 0 [])
    (AccessManager.request_read_access 2 2 no_faults Sample.db).
Proof.
  apply (statistics_follow_requests no_faults Sample.db 2 2 1 "zz" "n" "c"
           (mk_statistics 0 0 0 []) (conj eq_refl eq_refl) eq_refl eq_refl).
Defined.

End AuditReports.
